(** * NexusShell: the request lifecycle of the JavaScript core

    A shallow embedding of the JavaScript core of NexusShell
    ([src/core/command-engine.js], [src/core/security-context.js],
    [src/core/object-bridge.js], the execution recorder and the shell
    class), followed by the properties of its specification that can be
    stated on that embedding.

    Conventions of the embedding.
    - A JavaScript string is a Rocq [string]; an [ascii] stands for one
      UTF-16 code unit below 256.
    - A JavaScript [Map] whose iteration order is observed is an
      association list kept in insertion order; other maps and plain
      objects used as maps are [gmap]s.
    - A method that may throw returns an [outcome]; a method that mutates
      the shell runs in the state monad [M], and a thrown error keeps the
      mutations made before it, as in JavaScript.
    - [async]/[await] is sequential composition: one logical thread.
    - Console output and [EventEmitter] notifications are left out: no
      listener of the modelled classes writes to the modelled state. *)

From Stdlib Require Import ZArith String Ascii List Bool Lia DecimalString.
From stdpp Require Import base option list gmap strings.

#[local] Set Warnings "-register-all".

Import ListNotations.
Local Open Scope string_scope.
Local Open Scope list_scope.

(** ** JavaScript string primitives used by the sources *)

Module Js.

(** [WhiteSpace] and [LineTerminator] code units below 256: TAB, LF, VT,
    FF, CR, SP and NBSP. These are what [String.prototype.trim] strips. *)
Definition is_space (c : ascii) : bool :=
  match N_of_ascii c with
  | 9%N | 10%N | 11%N | 12%N | 13%N | 32%N | 160%N => true
  | _ => false
  end.

Definition is_empty (s : string) : bool :=
  match s with EmptyString => true | String _ _ => false end.

Fixpoint trimStart (s : string) : string :=
  match s with
  | EmptyString => EmptyString
  | String c r => if is_space c then trimStart r else s
  end.

Fixpoint trimEnd (s : string) : string :=
  match s with
  | EmptyString => EmptyString
  | String c r =>
      let r' := trimEnd r in
      if is_space c && is_empty r' then EmptyString else String c r'
  end.

(** [s.trim()] *)
Definition trim (s : string) : string := trimEnd (trimStart s).

(** [s.split(sep)] for a one-character separator: always at least one
    piece, empty pieces kept. *)
Fixpoint split (sep : ascii) (s : string) : list string :=
  match s with
  | EmptyString => [EmptyString]
  | String c r =>
      if Ascii.eqb c sep then EmptyString :: split sep r
      else match split sep r with
           | h :: t => String c h :: t
           | [] => [String c EmptyString]
           end
  end.

(** [s.startsWith(p)] *)
Definition startsWith (p s : string) : bool := String.prefix p s.

(** [s.includes(p)] *)
Fixpoint includes (p s : string) : bool :=
  String.prefix p s ||
  match s with
  | EmptyString => false
  | String _ r => includes p r
  end.

(** [s.slice(n)] for a non-negative [n] *)
Fixpoint slice (n : nat) (s : string) : string :=
  match n, s with
  | O, _ => s
  | S _, EmptyString => EmptyString
  | S n', String _ r => slice n' r
  end.

(** [s.replace(c, by)] with a string pattern of one character: only the
    first occurrence is replaced. *)
Fixpoint replace (c : ascii) (by_ : string) (s : string) : string :=
  match s with
  | EmptyString => EmptyString
  | String d r =>
      if Ascii.eqb d c then by_ +:+ r else String d (replace c by_ r)
  end.

(** Template-literal rendering of an integer *)
Definition of_int (z : Z) : string := NilZero.string_of_int (Z.to_int z).

(** The double-quote character, as a string *)
Definition quote : string := String "034" EmptyString.

(** Number of occurrences of a code unit *)
Fixpoint count (c : ascii) (s : string) : nat :=
  match s with
  | EmptyString => 0
  | String d r => (if Ascii.eqb d c then 1 else 0) + count c r
  end.

Fixpoint all_chars (p : ascii -> bool) (s : string) : bool :=
  match s with
  | EmptyString => true
  | String c r => p c && all_chars p r
  end.

End Js.

(** ** Values, errors and outcomes *)

(** JavaScript values that cross the modelled interfaces. Numbers are the
    integers the sources compute with (exit codes, pids, timestamps). *)
Inductive value : Type :=
| VUndefined
| VNull
| VBool (b : bool)
| VNum (n : Z)
| VStr (s : string)
| VList (items : list value)
| VObj (fields : list (string * value)).

(** [ToBoolean]: what [||], [?:] and [if] test. *)
Definition truthy (v : value) : bool :=
  match v with
  | VUndefined | VNull => false
  | VBool b => b
  | VNum n => negb (n =? 0)%Z
  | VStr s => negb (Js.is_empty s)
  | VList _ | VObj _ => true
  end.

(** Property read on an object literal; the last write of a key wins. *)
Fixpoint field (k : string) (fields : list (string * value)) : option value :=
  match fields with
  | [] => None
  | (k', v) :: rest =>
      match field k rest with
      | Some v' => Some v'
      | None => if String.eqb k k' then Some v else None
      end
  end.

Definition prop (k : string) (v : value) : option value :=
  match v with
  | VObj fields => field k fields
  | _ => None
  end.

(** Thrown values: [new Error(m)], and the [SyntaxError] and [TypeError]
    raised by built-ins. *)
Inductive exn : Type :=
| Error (message : string)
| SyntaxError (message : string)
| TypeError (message : string).

Definition message (e : exn) : string :=
  match e with Error m | SyntaxError m | TypeError m => m end.

Inductive outcome (A : Type) : Type :=
| Ok (a : A)
| Throw (e : exn).
Arguments Ok {A} a.
Arguments Throw {A} e.

Definition is_ok {A} (o : outcome A) : bool :=
  match o with Ok _ => true | Throw _ => false end.

(** ** A [Map] in insertion order

    [Map.prototype.set] on a present key overwrites the value and keeps
    the key's position; on an absent key it appends. Iteration visits the
    entries first to last. *)
Module JsMap.
Section JsMap.
Context {V : Type}.

Fixpoint get (k : string) (m : list (string * V)) : option V :=
  match m with
  | [] => None
  | (k', v) :: rest => if String.eqb k k' then Some v else get k rest
  end.

Definition has (k : string) (m : list (string * V)) : bool :=
  match get k m with Some _ => true | None => false end.

Fixpoint set (k : string) (v : V) (m : list (string * V)) : list (string * V) :=
  match m with
  | [] => [(k, v)]
  | (k', v') :: rest =>
      if String.eqb k k' then (k', v) :: rest else (k', v') :: set k v rest
  end.

End JsMap.
End JsMap.

(** ** The state of the shell

    One record per class, holding the fields its modelled methods read or
    write. Field names carry a short prefix of the class. *)

(** [SecurityContext.auditLog] entries *)
Record AuditEntry := {
  audit_timestamp : Z;
  audit_permission : string;
  audit_context : gmap string value;
  audit_granted : bool;
  audit_source : value
}.

Inductive rule_type := allow | deny.

Record Rule := { rule_type_of : rule_type; rule_resource : string }.

Record Policy := {
  policy_name : string;
  policy_description : string;
  policy_rules : list Rule
}.

Record SecurityContext := {
  sec_permissions : list (string * bool);
  sec_capabilities : gset string;
  sec_securityPolicies : gmap string Policy;
  sec_auditLog : list AuditEntry
}.

(** A registered command. The handler closure lives in the host (see
    [Host] below), keyed by the command's name. *)
Record Command := {
  cmd_name : string;
  cmd_description : string;
  cmd_permissions : list string
}.

Record HistoryEntry := {
  hist_input : string;
  hist_timestamp : Z;
  hist_context : gmap string value
}.

Record CommandEngine := {
  eng_commands : gmap string Command;
  eng_aliases : gmap string string;
  eng_commandHistory : list HistoryEntry
}.

Record Stats := {
  commandsExecuted : Z;
  totalExecutionTime : Z;
  memoryUsage : Z;
  cacheHits : Z;
  cacheMisses : Z
}.

(** [ExecutionRecorder.captureShellState] *)
Record ShellCapture := {
  cap_currentDirectory : string;
  cap_environment : gmap string string;
  cap_aliases : gmap string string;
  cap_stats : Stats;
  cap_plugins : list string;
  cap_isRunning : bool
}.

Record RecorderSnapshot := {
  snap_id : nat;
  snap_timestamp : Z;
  snap_type : string;
  snap_description : string;
  snap_systemState : value;
  snap_shellState : ShellCapture
}.

(** One element of [recording.commands]. A property that has not been
    assigned is [None]; [JSON.stringify] leaves such a key out. *)
Record CommandRecord := {
  cr_id : nat;
  cr_timestamp : Z;
  cr_input : string;
  cr_context : gmap string value;
  cr_systemState : value;
  cr_result : option value;
  cr_error : option (option exn);
  cr_executionTime : option Z
}.

Record Recording := {
  rcd_id : nat;
  rcd_name : string;
  rcd_startTime : Z;
  rcd_endTime : option Z;
  rcd_duration : option Z;
  rcd_commands : list CommandRecord;
  rcd_snapshots : list RecorderSnapshot
}.

(** The recorder. [currentRecording] and the entry of [recordings] are
    references to one object: the objects live in [rec_objects] and both
    fields hold its address. *)
Record ExecutionRecorder := {
  rec_recording : bool;
  rec_recordings : gmap nat nat;
  rec_currentRecording : option nat;
  rec_recordingId : nat;
  rec_snapshots : list RecorderSnapshot;
  rec_recordingsDir : string;
  rec_objects : list Recording
}.

(** Calls that leave the process: file system, signals, HTTP, children,
    and the recording file written by [saveRecording]. *)
Inductive host_op : Type :=
| FsReadFile (path encoding : string)
| FsWriteFile (path : string) (content : value)
| FsReaddir (path : string)
| FsStat (path : string)
| FsMkdir (path : string)
| FsWriteRecording (path : string) (document : Recording)
| ProcessKill (pid : Z) (signal : string)
| Fetch (method url : string) (body : option value)
| Spawn (command : string) (args : list string) (capture : bool)
        (cwd : string) (env : gmap string string).

(** The shell object without its transaction stack (see [NexusShell]). *)
Record ShellState := {
  isRunning : bool;
  currentDirectory : string;
  environment : gmap string string;
  aliases : gmap string string;
  plugins : list string;
  stats : Stats;
  securityContext : SecurityContext;
  commandEngine : CommandEngine;
  executionRecorder : ExecutionRecorder;
  clock : Z;
  process_cwd : string;
  host_log : list host_op
}.

(** How a spawned child ended: the ['error'] event, or ['close'] with the
    exit code ([None] when a signal ended it) and what it wrote. *)
Inductive child_exit : Type :=
| SpawnError (e : exn)
| Closed (code : option Z) (stdout stderr : string).

(** ** The host

    What the sources take from the runtime and from user code: the
    [RegExp] engine, child processes, the results of host calls, the
    command handlers and the script evaluator. Handlers and scripts are
    arbitrary transformers of the shell state. *)
Class Host := {
  (** [new RegExp(source).test(subject)]; the constructor throws a
      [SyntaxError] on a malformed source *)
  regexp_test : string -> string -> outcome bool;
  (** the end of the child started by [spawn], given the calls so far *)
  child : list host_op -> host_op -> child_exit;
  (** the answer of any other host call, given the calls so far *)
  respond : list host_op -> host_op -> outcome value;
  (** [commandDef.handler({command, args, flags, context, shell})] *)
  handler : string -> list string -> gmap string value ->
            gmap string value -> ShellState -> outcome value * ShellState;
  (** the function built by [new Function] from a script, applied *)
  evaluate : string -> gmap string value -> ShellState ->
             outcome value * ShellState;
  (** [captureSystemState()] at a given time *)
  systemState : Z -> value;
  (** [process.memoryUsage().heapUsed] at a given time *)
  heapUsed : Z -> Z
}.

(** ** The state-and-exception monad of the methods *)

Definition M (A : Type) : Type := ShellState -> outcome A * ShellState.

Definition ret {A} (a : A) : M A := fun s => (Ok a, s).

Definition throw {A} (e : exn) : M A := fun s => (Throw e, s).

Definition bind {A B} (m : M A) (k : A -> M B) : M B :=
  fun s =>
    match m s with
    | (Ok a, s') => k a s'
    | (Throw e, s') => (Throw e, s')
    end.

(** [try { m } catch (e) { h e }] *)
Definition catch {A} (m : M A) (h : exn -> M A) : M A :=
  fun s =>
    match m s with
    | (Ok a, s') => (Ok a, s')
    | (Throw e, s') => h e s'
    end.

Definition gets {A} (f : ShellState -> A) : M A := fun s => (Ok (f s), s).

Definition modify (f : ShellState -> ShellState) : M unit :=
  fun s => (Ok tt, f s).

Definition lift {A} (o : outcome A) : M A := fun s => (o, s).

Declare Scope shell_scope.
Delimit Scope shell_scope with sh.
Notation "'let!' x ':=' m 'in' k" := (bind m (fun x => k))
  (at level 10, x pattern, m at level 100, k at level 200) : shell_scope.
Notation "m '>>' k" := (bind m (fun _ => k))
  (at level 90, right associativity) : shell_scope.
Local Open Scope shell_scope.

(** [Date.now()] *)
Definition Date_now : M Z := gets clock.

(** Field updates of the shell state *)
Definition with_securityContext (f : SecurityContext -> SecurityContext)
    (s : ShellState) : ShellState :=
  {| isRunning := isRunning s;
     currentDirectory := currentDirectory s;
     environment := environment s;
     aliases := aliases s;
     plugins := plugins s;
     stats := stats s;
     securityContext := f (securityContext s);
     commandEngine := commandEngine s;
     executionRecorder := executionRecorder s;
     clock := clock s;
     process_cwd := process_cwd s;
     host_log := host_log s |}.

Definition with_commandEngine (f : CommandEngine -> CommandEngine)
    (s : ShellState) : ShellState :=
  {| isRunning := isRunning s;
     currentDirectory := currentDirectory s;
     environment := environment s;
     aliases := aliases s;
     plugins := plugins s;
     stats := stats s;
     securityContext := securityContext s;
     commandEngine := f (commandEngine s);
     executionRecorder := executionRecorder s;
     clock := clock s;
     process_cwd := process_cwd s;
     host_log := host_log s |}.

Definition with_executionRecorder (f : ExecutionRecorder -> ExecutionRecorder)
    (s : ShellState) : ShellState :=
  {| isRunning := isRunning s;
     currentDirectory := currentDirectory s;
     environment := environment s;
     aliases := aliases s;
     plugins := plugins s;
     stats := stats s;
     securityContext := securityContext s;
     commandEngine := commandEngine s;
     executionRecorder := f (executionRecorder s);
     clock := clock s;
     process_cwd := process_cwd s;
     host_log := host_log s |}.

Definition with_stats (f : Stats -> Stats) (s : ShellState) : ShellState :=
  {| isRunning := isRunning s;
     currentDirectory := currentDirectory s;
     environment := environment s;
     aliases := aliases s;
     plugins := plugins s;
     stats := f (stats s);
     securityContext := securityContext s;
     commandEngine := commandEngine s;
     executionRecorder := executionRecorder s;
     clock := clock s;
     process_cwd := process_cwd s;
     host_log := host_log s |}.

Definition with_host_log (f : list host_op -> list host_op)
    (s : ShellState) : ShellState :=
  {| isRunning := isRunning s;
     currentDirectory := currentDirectory s;
     environment := environment s;
     aliases := aliases s;
     plugins := plugins s;
     stats := stats s;
     securityContext := securityContext s;
     commandEngine := commandEngine s;
     executionRecorder := executionRecorder s;
     clock := clock s;
     process_cwd := process_cwd s;
     host_log := f (host_log s) |}.

(** ** [SecurityContext] (src/core/security-context.js) *)

Module Security.
Section Security.
Context `{Host}.

Definition with_permissions (f : list (string * bool) -> list (string * bool))
    (sc : SecurityContext) : SecurityContext :=
  {| sec_permissions := f (sec_permissions sc);
     sec_capabilities := sec_capabilities sc;
     sec_securityPolicies := sec_securityPolicies sc;
     sec_auditLog := sec_auditLog sc |}.

Definition with_capabilities (f : gset string -> gset string)
    (sc : SecurityContext) : SecurityContext :=
  {| sec_permissions := sec_permissions sc;
     sec_capabilities := f (sec_capabilities sc);
     sec_securityPolicies := sec_securityPolicies sc;
     sec_auditLog := sec_auditLog sc |}.

Definition with_securityPolicies
    (f : gmap string Policy -> gmap string Policy)
    (sc : SecurityContext) : SecurityContext :=
  {| sec_permissions := sec_permissions sc;
     sec_capabilities := sec_capabilities sc;
     sec_securityPolicies := f (sec_securityPolicies sc);
     sec_auditLog := sec_auditLog sc |}.

Definition with_auditLog (f : list AuditEntry -> list AuditEntry)
    (sc : SecurityContext) : SecurityContext :=
  {| sec_permissions := sec_permissions sc;
     sec_capabilities := sec_capabilities sc;
     sec_securityPolicies := sec_securityPolicies sc;
     sec_auditLog := f (sec_auditLog sc) |}.

(** The constructor's fields *)
Definition empty : SecurityContext :=
  {| sec_permissions := [];
     sec_capabilities := ∅;
     sec_securityPolicies := ∅;
     sec_auditLog := [] |}.

(** The [for (const [perm, granted] of this.permissions)] loop of
    [hasPermission]: entries in insertion order; an entry whose key has a
    [*] is turned into a regular expression by replacing its first [*]
    with [.*], and the first one whose test succeeds returns its value. *)
Fixpoint scanWildcards (entries : list (string * bool)) (permission : string)
    : outcome bool :=
  match entries with
  | [] => Ok false
  | (perm, granted) :: rest =>
      if Js.includes "*" perm then
        match regexp_test (Js.replace "*" ".*" perm) permission with
        | Ok true => Ok granted
        | Ok false => scanWildcards rest permission
        | Throw e => Throw e
        end
      else scanWildcards rest permission
  end.

Definition hasPermission (sc : SecurityContext) (permission : string)
    : outcome bool :=
  match JsMap.get permission (sec_permissions sc) with
  | Some granted => Ok granted
  | None => scanWildcards (sec_permissions sc) permission
  end.

(** A stored key with a [*] matches a queried permission when the
    regular expression made from it tests true. *)
Definition matches (perm permission : string) : Prop :=
  Js.includes "*" perm = true /\
  regexp_test (Js.replace "*" ".*" perm) permission = Ok true.


(** [context.source || 'unknown'] *)
Definition source_of (context : gmap string value) : value :=
  match context !! "source" with
  | Some v => if truthy v then v else VStr "unknown"
  | None => VStr "unknown"
  end.

Definition checkPermission (permission : string)
    (context : gmap string value) : M bool :=
  let! sc := gets securityContext in
  let! hasPermission := lift (hasPermission sc permission) in
  let! now := Date_now in
  modify (with_securityContext (with_auditLog (fun log =>
    log ++ [ {| audit_timestamp := now;
                audit_permission := permission;
                audit_context := context;
                audit_granted := hasPermission;
                audit_source := source_of context |} ]))) >>
  ret hasPermission.

(** [n] successive calls of [checkPermission(permission)] *)
Fixpoint checks (n : nat) (permission : string) : M unit :=
  match n with
  | O => ret tt
  | S n' => checkPermission permission ∅ >> checks n' permission
  end.

Definition grantPermission (permission : string) : M unit :=
  modify (with_securityContext
            (with_permissions (JsMap.set permission true))).

Definition revokePermission (permission : string) : M unit :=
  modify (with_securityContext
            (with_permissions (JsMap.set permission false))).

Definition addCapability (capability : string) : M unit :=
  modify (with_securityContext
            (with_capabilities (fun c => {[ capability ]} ∪ c))).

Definition removeCapability (capability : string) : M unit :=
  modify (with_securityContext
            (with_capabilities (fun c => c ∖ {[ capability ]}))).

Definition setDefaultPermissions : M unit :=
  let! cwd := gets process_cwd in
  grantPermission "command:execute" >>
  grantPermission "command:help" >>
  grantPermission "command:exit" >>
  grantPermission "command:history" >>
  grantPermission "command:alias" >>
  grantPermission ("fs:read:" +:+ cwd +:+ "/*") >>
  grantPermission ("fs:write:" +:+ cwd +:+ "/*") >>
  grantPermission "net:connect:localhost:*" >>
  grantPermission "proc:list" >>
  grantPermission "proc:info" >>
  addCapability "shell:basic" >>
  addCapability "fs:user-directory" >>
  addCapability "net:local".

Definition sandbox_policy : Policy :=
  {| policy_name := "Sandbox Policy";
     policy_description := "Restricts commands to safe operations";
     policy_rules :=
       [ {| rule_type_of := deny; rule_resource := "fs:write:/etc/*" |};
         {| rule_type_of := deny; rule_resource := "fs:write:/usr/*" |};
         {| rule_type_of := deny; rule_resource := "proc:kill:*" |};
         {| rule_type_of := allow; rule_resource := "fs:read:*" |} ] |}.

Definition developer_policy : Policy :=
  {| policy_name := "Developer Policy";
     policy_description := "Allows most operations for development";
     policy_rules :=
       [ {| rule_type_of := allow; rule_resource := "fs:*" |};
         {| rule_type_of := allow; rule_resource := "proc:*" |};
         {| rule_type_of := allow; rule_resource := "net:*" |};
         {| rule_type_of := deny; rule_resource := "fs:write:/etc/passwd" |} ] |}.

Definition loadSecurityPolicies : M unit :=
  modify (with_securityContext (with_securityPolicies (fun p =>
    <["developer" := developer_policy]> (<["sandbox" := sandbox_policy]> p)))).

Definition initialize : M unit :=
  setDefaultPermissions >> loadSecurityPolicies.

Fixpoint applyRules (rules : list Rule) : M unit :=
  match rules with
  | [] => ret tt
  | rule :: rest =>
      match rule_type_of rule with
      | allow => grantPermission (rule_resource rule)
      | deny => revokePermission (rule_resource rule)
      end >> applyRules rest
  end.

Definition applyPolicy (policyName : string) : M unit :=
  let! sc := gets securityContext in
  match sec_securityPolicies sc !! policyName with
  | None =>
      throw (Error ("Security policy '" +:+ policyName +:+ "' not found"))
  | Some policy => applyRules (policy_rules policy)
  end.

Definition getAuditLog : M (list AuditEntry) :=
  gets (fun s => sec_auditLog (securityContext s)).

Definition clearAuditLog : M unit :=
  modify (with_securityContext (with_auditLog (fun _ => []))).

End Security.
End Security.

(** ** [CommandEngine] (src/core/command-engine.js) *)

(** The object returned by [parseCommand]; [command] is [undefined],
    here [None], when the input has no token. *)
Record ParsedCommand := {
  pc_command : option string;
  pc_args : list string;
  pc_flags : gmap string value
}.

Module Engine.
Section Engine.
Context `{Host}.

Definition with_commands (f : gmap string Command -> gmap string Command)
    (e : CommandEngine) : CommandEngine :=
  {| eng_commands := f (eng_commands e);
     eng_aliases := eng_aliases e;
     eng_commandHistory := eng_commandHistory e |}.

Definition with_aliases (f : gmap string string -> gmap string string)
    (e : CommandEngine) : CommandEngine :=
  {| eng_commands := eng_commands e;
     eng_aliases := f (eng_aliases e);
     eng_commandHistory := eng_commandHistory e |}.

Definition with_commandHistory (f : list HistoryEntry -> list HistoryEntry)
    (e : CommandEngine) : CommandEngine :=
  {| eng_commands := eng_commands e;
     eng_aliases := eng_aliases e;
     eng_commandHistory := f (eng_commandHistory e) |}.

Definition empty : CommandEngine :=
  {| eng_commands := ∅; eng_aliases := ∅; eng_commandHistory := [] |}.

Definition registerCommand (name description : string)
    (permissions : list string) : M Command :=
  let! e := gets commandEngine in
  match eng_commands e !! name with
  | Some _ =>
      throw (Error ("Command '" +:+ name +:+ "' is already registered"))
  | None =>
      let command :=
        {| cmd_name := name;
           cmd_description := description;
           cmd_permissions := permissions |} in
      modify (with_commandEngine (with_commands (insert name command))) >>
      ret command
  end.

(** [input.split(' ').filter(part => part.trim())] *)
Definition parts_of (input : string) : list string :=
  List.filter (fun part => negb (Js.is_empty (Js.trim part)))
              (Js.split " " input).

(** The body of the [for] loop of [parseCommand] on one part *)
Definition parsePart (acc : list string * gmap string value) (part : string)
    : list string * gmap string value :=
  let '(args, flags) := acc in
  if Js.startsWith "--" part then
    let pieces := Js.split "=" (Js.slice 2 part) in
    let key := match pieces with k :: _ => k | [] => EmptyString end in
    let value :=
      match pieces with
      | _ :: v :: _ => if Js.is_empty v then VBool true else VStr v
      | _ => VBool true
      end in
    (args, <[key := value]> flags)
  else if Js.startsWith "-" part then
    (args, <[Js.slice 1 part := VBool true]> flags)
  else (args ++ [part], flags).

Definition parseCommand (input : string) : ParsedCommand :=
  let parts := parts_of input in
  let '(args, flags) := fold_left parsePart (tl parts) ([], ∅) in
  {| pc_command := hd_error parts; pc_args := args; pc_flags := flags |}.

(** [\w] *)
Definition is_word (c : ascii) : bool :=
  let n := N_of_ascii c in
  ((48 <=? n) && (n <=? 57) || (65 <=? n) && (n <=? 90) ||
   (97 <=? n) && (n <=? 122) || (n =? 95))%N.

Fixpoint skip_word (s : string) : string :=
  match s with
  | EmptyString => EmptyString
  | String c r => if is_word c then skip_word r else s
  end.

(** [\w+\(] at the start of [s] *)
Definition call_follows (s : string) : bool :=
  match s with
  | EmptyString => false
  | String c r =>
      is_word c &&
      match skip_word r with
      | String "(" _ => true
      | _ => false
      end
  end.

(** [/\w+\.\w+\(/.test(s)]: a word character, a dot, one or more word
    characters and an opening parenthesis, anywhere in [s]. *)
Fixpoint method_call (s : string) : bool :=
  match s with
  | EmptyString => false
  | String c r =>
      (is_word c &&
       match r with
       | String "." r' => call_follows r'
       | _ => false
       end) || method_call r
  end.

Definition isObjectPipelineMode (input : string) : bool :=
  method_call input || Js.includes ".filter(" input ||
  Js.includes ".map(" input || Js.includes ".reduce(" input.

(** [`${code}`] for the exit code of a child *)
Definition render_code (code : option Z) : string :=
  match code with Some c => Js.of_int c | None => "null" end.

(** [executeSystemCommand]: the promise settles on the first of the
    child's ['error'] and ['close'] events. With [stdio: 'inherit'] nothing
    is collected. [spawn(undefined, ...)] throws inside the executor. *)
Definition executeSystemCommand (command : option string) (args : list string)
    (flags : gmap string value) (context : gmap string value) : M value :=
  match command with
  | None =>
      throw (TypeError ("The " +:+ Js.quote +:+ "file" +:+ Js.quote +:+
                        " argument must be of type string. Received undefined"))
  | Some command =>
      let capture :=
        match context !! "capture" with Some v => truthy v | None => false end in
      let! cwd := gets currentDirectory in
      let! env := gets environment in
      let! calls := gets host_log in
      let op := Spawn command args capture cwd env in
      modify (with_host_log (fun log => log ++ [op])) >>
      match child calls op with
      | SpawnError e => throw e
      | Closed code out err =>
          let stdout := if capture then out else EmptyString in
          let stderr := if capture then err else EmptyString in
          match code with
          | Some 0%Z =>
              ret (VObj [ ("success", VBool true);
                          ("code", VNum 0);
                          ("stdout", VStr (Js.trim stdout));
                          ("stderr", VStr (Js.trim stderr)) ])
          | _ =>
              throw (Error ("Command failed with code " +:+ render_code code
                            +:+ ": " +:+ stderr))
          end
      end
  end.

(** [checkPermissions(command, context)] *)
Fixpoint checkPermissions (permissions : list string)
    (context : gmap string value) : M unit :=
  match permissions with
  | [] => ret tt
  | permission :: rest =>
      let! hasPermission := Security.checkPermission permission context in
      if hasPermission then checkPermissions rest context
      else throw (Error ("Permission denied: " +:+ permission))
  end.

(** [this.aliases.get(command) || command] *)
Definition resolveAlias (e : CommandEngine) (command : option string)
    : option string :=
  match command with
  | None => None
  | Some c =>
      match eng_aliases e !! c with
      | Some a => if Js.is_empty a then Some c else Some a
      | None => Some c
      end
  end.

Definition lookupCommand (e : CommandEngine) (name : option string)
    : option Command :=
  match name with
  | None => None
  | Some n => eng_commands e !! n
  end.

Definition executeSingleCommand (input : string)
    (context : gmap string value) : M value :=
  let parsed := parseCommand input in
  let! e := gets commandEngine in
  let resolvedCommand := resolveAlias e (pc_command parsed) in
  match resolvedCommand, lookupCommand e resolvedCommand with
  | Some name, Some commandDef =>
      checkPermissions (cmd_permissions commandDef) context >>
      catch (handler name (pc_args parsed) (pc_flags parsed) context)
            (fun error =>
               throw (Error ("Command '" +:+ name +:+ "' failed: "
                             +:+ message error)))
  | _, _ =>
      executeSystemCommand resolvedCommand (pc_args parsed)
                           (pc_flags parsed) context
  end.

(** [input.split('|').map(cmd => cmd.trim())] *)
Definition stages_of (input : string) : list string :=
  map Js.trim (Js.split "|" input).

(** The [for] loop of [executePipeline], from stage [i] on *)
Fixpoint runStages (commands : list string) (i length : nat)
    (context : gmap string value) (result : value) : M value :=
  match commands with
  | [] => ret result
  | command :: rest =>
      let pipelineContext :=
        <["pipelineLength" := VNum (Z.of_nat length)]>
          (<["pipelineIndex" := VNum (Z.of_nat i)]>
             (<["pipelineInput" := result]> context)) in
      let! result' := executeSingleCommand command pipelineContext in
      runStages rest (S i) length context result'
  end.

Definition executePipeline (input : string)
    (context : gmap string value) : M value :=
  let commands := stages_of input in
  runStages commands 0 (List.length commands) context VNull.

Definition executeObjectPipeline (input : string)
    (context : gmap string value) : M value :=
  catch (evaluate input context)
        (fun error =>
           throw (Error ("Object pipeline execution failed: "
                         +:+ message error))).

(** [this.commandHistory.push({input, timestamp: Date.now(), context})] *)
Definition pushHistory (trimmedInput : string) (context : gmap string value)
    : M unit :=
  let! now := Date_now in
  modify (with_commandEngine (with_commandHistory (fun h =>
    h ++ [ {| hist_input := trimmedInput;
              hist_timestamp := now;
              hist_context := context |} ]))).

Definition execute (input : string) (context : gmap string value) : M value :=
  let trimmedInput := Js.trim input in
  if Js.is_empty trimmedInput then ret VNull
  else
    pushHistory trimmedInput context >>
    if Js.includes "|" trimmedInput then
      executePipeline trimmedInput context
    else if isObjectPipelineMode trimmedInput then
      executeObjectPipeline trimmedInput context
    else executeSingleCommand trimmedInput context.

Definition setAlias (alias command : string) : M unit :=
  modify (with_commandEngine (with_aliases (insert alias command))).

Definition clearHistory : M unit :=
  modify (with_commandEngine (with_commandHistory (fun _ => []))).

End Engine.
End Engine.

(** ** [ObjectBridge] (src/core/object-bridge.js)

    The methods of the [fs], [proc] and [net] surfaces that act outside
    the process. Each one awaits [checkPermission] and then goes on: the
    boolean the check resolves to is not looked at. *)

Module Bridge.
Section Bridge.
Context `{Host}.

(** A host call: it is appended to the log of calls, and the host gives
    its result or throws. *)
Definition perform (op : host_op) : M value :=
  let! calls := gets host_log in
  modify (with_host_log (fun log => log ++ [op])) >>
  lift (respond calls op).

(** [options.encoding || 'utf8'] *)
Definition encoding_of (encoding : option string) : string :=
  match encoding with
  | Some e => if Js.is_empty e then "utf8" else e
  | None => "utf8"
  end.

(** [new FileObject(path, shell)] *)
Definition FileObject (path : string) : value := VObj [ ("path", VStr path) ].

Definition readFile (filePath : string) (encoding : option string) : M value :=
  Security.checkPermission ("fs:read:" +:+ filePath) ∅ >>
  let! content := perform (FsReadFile filePath (encoding_of encoding)) in
  ret (VObj [ ("content", content); ("filePath", VStr filePath) ]).

Definition writeFile (filePath : string) (content : value) : M value :=
  Security.checkPermission ("fs:write:" +:+ filePath) ∅ >>
  perform (FsWriteFile filePath content) >>
  ret (FileObject filePath).

(** The host's answer stands for the mapped list of entries. *)
Definition listDir (dirPath : string) : M value :=
  Security.checkPermission ("fs:read:" +:+ dirPath) ∅ >>
  perform (FsReaddir dirPath).

Definition stat (filePath : string) : M value :=
  Security.checkPermission ("fs:read:" +:+ filePath) ∅ >>
  perform (FsStat filePath).

(** [new ProcessResult(code, stdout, stderr, command)] *)
Definition ProcessResult (code : option Z) (stdout stderr command : string)
    : value :=
  VObj [ ("code", match code with Some c => VNum c | None => VNull end);
         ("stdout", VStr stdout);
         ("stderr", VStr stderr);
         ("command", VStr command);
         ("success", VBool match code with Some 0%Z => true | _ => false end) ].

(** [proc.exec(command, {args, cwd, env})] *)
Definition exec (command : string) (args : list string)
    (cwd : option string) (env : gmap string string) : M value :=
  Security.checkPermission "proc:exec" ∅ >>
  let! shellCwd := gets currentDirectory in
  let! shellEnv := gets environment in
  let! calls := gets host_log in
  let dir :=
    match cwd with
    | Some d => if Js.is_empty d then shellCwd else d
    | None => shellCwd
    end in
  let op := Spawn command args true dir (env ∪ shellEnv) in
  modify (with_host_log (fun log => log ++ [op])) >>
  match child calls op with
  | SpawnError e => throw e
  | Closed code out err => ret (ProcessResult code out err command)
  end.

Definition kill (pid : Z) (signal : string) : M value :=
  Security.checkPermission ("proc:kill:" +:+ Js.of_int pid) ∅ >>
  perform (ProcessKill pid signal) >>
  ret VUndefined.

Definition get (url : string) : M value :=
  Security.checkPermission ("net:http:" +:+ url) ∅ >>
  perform (Fetch "GET" url None).

Definition post (url : string) (data : value) : M value :=
  Security.checkPermission ("net:http:" +:+ url) ∅ >>
  perform (Fetch "POST" url (Some data)).

Definition download (url filePath : string) : M value :=
  Security.checkPermission ("net:download:" +:+ url) ∅ >>
  Security.checkPermission ("fs:write:" +:+ filePath) ∅ >>
  let! buffer := perform (Fetch "GET" url None) in
  perform (FsWriteFile filePath buffer) >>
  ret (FileObject filePath).

End Bridge.
End Bridge.

(** ** [ExecutionRecorder] *)

Module Recorder.
Section Recorder.
Context `{Host}.

Definition with_recording (b : bool) (r : ExecutionRecorder)
    : ExecutionRecorder :=
  {| rec_recording := b;
     rec_recordings := rec_recordings r;
     rec_currentRecording := rec_currentRecording r;
     rec_recordingId := rec_recordingId r;
     rec_snapshots := rec_snapshots r;
     rec_recordingsDir := rec_recordingsDir r;
     rec_objects := rec_objects r |}.

Definition with_recordings (f : gmap nat nat -> gmap nat nat)
    (r : ExecutionRecorder) : ExecutionRecorder :=
  {| rec_recording := rec_recording r;
     rec_recordings := f (rec_recordings r);
     rec_currentRecording := rec_currentRecording r;
     rec_recordingId := rec_recordingId r;
     rec_snapshots := rec_snapshots r;
     rec_recordingsDir := rec_recordingsDir r;
     rec_objects := rec_objects r |}.

Definition with_currentRecording (c : option nat) (r : ExecutionRecorder)
    : ExecutionRecorder :=
  {| rec_recording := rec_recording r;
     rec_recordings := rec_recordings r;
     rec_currentRecording := c;
     rec_recordingId := rec_recordingId r;
     rec_snapshots := rec_snapshots r;
     rec_recordingsDir := rec_recordingsDir r;
     rec_objects := rec_objects r |}.

Definition with_recordingId (n : nat) (r : ExecutionRecorder)
    : ExecutionRecorder :=
  {| rec_recording := rec_recording r;
     rec_recordings := rec_recordings r;
     rec_currentRecording := rec_currentRecording r;
     rec_recordingId := n;
     rec_snapshots := rec_snapshots r;
     rec_recordingsDir := rec_recordingsDir r;
     rec_objects := rec_objects r |}.

Definition with_snapshots
    (f : list RecorderSnapshot -> list RecorderSnapshot)
    (r : ExecutionRecorder) : ExecutionRecorder :=
  {| rec_recording := rec_recording r;
     rec_recordings := rec_recordings r;
     rec_currentRecording := rec_currentRecording r;
     rec_recordingId := rec_recordingId r;
     rec_snapshots := f (rec_snapshots r);
     rec_recordingsDir := rec_recordingsDir r;
     rec_objects := rec_objects r |}.

Definition with_objects (f : list Recording -> list Recording)
    (r : ExecutionRecorder) : ExecutionRecorder :=
  {| rec_recording := rec_recording r;
     rec_recordings := rec_recordings r;
     rec_currentRecording := rec_currentRecording r;
     rec_recordingId := rec_recordingId r;
     rec_snapshots := rec_snapshots r;
     rec_recordingsDir := rec_recordingsDir r;
     rec_objects := f (rec_objects r) |}.

Definition with_rcd_commands (f : list CommandRecord -> list CommandRecord)
    (r : Recording) : Recording :=
  {| rcd_id := rcd_id r;
     rcd_name := rcd_name r;
     rcd_startTime := rcd_startTime r;
     rcd_endTime := rcd_endTime r;
     rcd_duration := rcd_duration r;
     rcd_commands := f (rcd_commands r);
     rcd_snapshots := rcd_snapshots r |}.

Definition with_rcd_snapshots
    (f : list RecorderSnapshot -> list RecorderSnapshot)
    (r : Recording) : Recording :=
  {| rcd_id := rcd_id r;
     rcd_name := rcd_name r;
     rcd_startTime := rcd_startTime r;
     rcd_endTime := rcd_endTime r;
     rcd_duration := rcd_duration r;
     rcd_commands := rcd_commands r;
     rcd_snapshots := f (rcd_snapshots r) |}.

Definition with_rcd_end (endTime : Z) (r : Recording) : Recording :=
  {| rcd_id := rcd_id r;
     rcd_name := rcd_name r;
     rcd_startTime := rcd_startTime r;
     rcd_endTime := Some endTime;
     rcd_duration := Some (endTime - rcd_startTime r)%Z;
     rcd_commands := rcd_commands r;
     rcd_snapshots := rcd_snapshots r |}.

(** The constructor's fields; [dir] is
    [path.join(process.cwd(), '.nexus', 'recordings')]. *)
Definition empty (dir : string) : ExecutionRecorder :=
  {| rec_recording := false;
     rec_recordings := ∅;
     rec_currentRecording := None;
     rec_recordingId := 0;
     rec_snapshots := [];
     rec_recordingsDir := dir;
     rec_objects := [] |}.

Definition isRecording : M bool :=
  gets (fun s => rec_recording (executionRecorder s)).

(** Reading [this.currentRecording]: the object it refers to. Reading a
    property of [null] throws a [TypeError]. *)
Definition current : M Recording :=
  let! r := gets executionRecorder in
  match rec_currentRecording r with
  | None => throw (TypeError "Cannot read properties of null")
  | Some a =>
      match rec_objects r !! a with
      | Some obj => ret obj
      | None => throw (TypeError "Cannot read properties of null")
      end
  end.

(** Mutating the object [this.currentRecording] refers to *)
Definition update_current (f : Recording -> Recording) : M unit :=
  let! r := gets executionRecorder in
  match rec_currentRecording r with
  | None => throw (TypeError "Cannot read properties of null")
  | Some a => modify (with_executionRecorder (with_objects (alter f a)))
  end.

Definition captureShellState : M ShellCapture :=
  gets (fun s =>
    {| cap_currentDirectory := currentDirectory s;
       cap_environment := environment s;
       cap_aliases := aliases s;
       cap_stats := stats s;
       cap_plugins := plugins s;
       cap_isRunning := isRunning s |}).

Definition createSnapshot (type description : string) : M RecorderSnapshot :=
  let! r := gets executionRecorder in
  let! now := Date_now in
  let! shellState := captureShellState in
  let snapshot :=
    {| snap_id := List.length (rec_snapshots r) + 1;
       snap_timestamp := now;
       snap_type := type;
       snap_description := description;
       snap_systemState := systemState now;
       snap_shellState := shellState |} in
  modify (with_executionRecorder
            (with_snapshots (fun l => l ++ [snapshot]))) >>
  (if rec_recording r
   then update_current (with_rcd_snapshots (fun l => l ++ [snapshot]))
   else ret tt) >>
  ret snapshot.

(** [name || `recording_${this.recordingId}_${Date.now()}`] *)
Definition recordingName (name : option string) (id : nat) (now : Z) : string :=
  let generated :=
    "recording_" +:+ Js.of_int (Z.of_nat id) +:+ "_" +:+ Js.of_int now in
  match name with
  | Some n => if Js.is_empty n then generated else n
  | None => generated
  end.

Definition startRecording (name : option string) : M unit :=
  let! r := gets executionRecorder in
  if rec_recording r then throw (Error "Recording is already in progress")
  else
    let! now := Date_now in
    let id := S (rec_recordingId r) in
    let obj :=
      {| rcd_id := id;
         rcd_name := recordingName name id now;
         rcd_startTime := now;
         rcd_endTime := None;
         rcd_duration := None;
         rcd_commands := [];
         rcd_snapshots := [] |} in
    let address := List.length (rec_objects r) in
    modify (with_executionRecorder (fun r =>
      with_recordings (insert id address)
        (with_recording true
           (with_currentRecording (Some address)
              (with_objects (fun l => l ++ [obj])
                 (with_recordingId id r)))))) >>
    createSnapshot "recording_start" EmptyString >>
    ret tt.

(** [saveRecording]: a failure of [mkdir] or [writeFile] is caught and
    only printed. The document written is the recording itself. *)
Definition saveRecording (recording : Recording) : M unit :=
  let! r := gets executionRecorder in
  let dir := rec_recordingsDir r in
  catch (Bridge.perform (FsMkdir dir) >>
         Bridge.perform
           (FsWriteRecording (dir +:+ "/" +:+ rcd_name recording +:+ ".json")
                             recording) >>
         ret tt)
        (fun _ => ret tt).

Definition stopRecording : M Recording :=
  let! r := gets executionRecorder in
  if negb (rec_recording r) then throw (Error "No recording in progress")
  else
    let! now := Date_now in
    update_current (with_rcd_end now) >>
    createSnapshot "recording_end" EmptyString >>
    let! saved := current in
    saveRecording saved >>
    let! recording := current in
    modify (with_executionRecorder (fun r =>
      with_currentRecording None (with_recording false r))) >>
    ret recording.

Definition recordCommand (input : string) (context : gmap string value)
    : M unit :=
  let! r := gets executionRecorder in
  if negb (rec_recording r) then ret tt
  else
    let! now := Date_now in
    let! cur := current in
    let commandRecord :=
      {| cr_id := List.length (rcd_commands cur) + 1;
         cr_timestamp := now;
         cr_input := input;
         cr_context := context;
         cr_systemState := systemState now;
         cr_result := None;
         cr_error := None;
         cr_executionTime := None |} in
    update_current (with_rcd_commands (fun l => l ++ [commandRecord])).

(** Assigning the three properties on the first record whose [id] is
    [commandId], as [find] returns it *)
Fixpoint setResult (commandId : nat) (result : value) (error : option exn)
    (now : Z) (commands : list CommandRecord) : list CommandRecord :=
  match commands with
  | [] => []
  | c :: rest =>
      if Nat.eqb (cr_id c) commandId then
        {| cr_id := cr_id c;
           cr_timestamp := cr_timestamp c;
           cr_input := cr_input c;
           cr_context := cr_context c;
           cr_systemState := cr_systemState c;
           cr_result := Some result;
           cr_error := Some error;
           cr_executionTime := Some (now - cr_timestamp c)%Z |} :: rest
      else c :: setResult commandId result error now rest
  end.

Definition recordCommandResult (commandId : nat) (result : value)
    (error : option exn) : M unit :=
  let! r := gets executionRecorder in
  if negb (rec_recording r) then ret tt
  else
    let! now := Date_now in
    update_current (with_rcd_commands (setResult commandId result error now)).

End Recorder.
End Recorder.

(** ** [NexusShell] *)

(** The object returned by [NexusShell.createSnapshot] *)
Record ShellSnapshot := {
  ss_timestamp : Z;
  ss_currentDirectory : string;
  ss_environment : gmap string string;
  ss_aliases : gmap string string
}.

(** The [options] of [executeTransaction]. The callback is user code; it
    is given the transaction's id, snapshot and commands. *)
Record TransactionOptions := {
  onRollback : option (string -> ShellSnapshot -> list string -> M unit)
}.

Record Transaction := {
  tx_id : string;
  tx_snapshot : ShellSnapshot;
  tx_commands : list string;
  tx_options : TransactionOptions
}.

(** The shell with its transaction stack. Command handlers and scripts
    transform the [ShellState]; the stack is touched by
    [executeTransaction] alone. *)
Record NexusShell := {
  state : ShellState;
  transactionStack : list Transaction
}.

Module Shell.
Section Shell.
Context `{Host}.

Definition with_commandsExecuted (f : Z -> Z) (st : Stats) : Stats :=
  {| commandsExecuted := f (commandsExecuted st);
     totalExecutionTime := totalExecutionTime st;
     memoryUsage := memoryUsage st;
     cacheHits := cacheHits st;
     cacheMisses := cacheMisses st |}.

Definition with_timing (executionTime heap : Z) (st : Stats) : Stats :=
  {| commandsExecuted := commandsExecuted st;
     totalExecutionTime := (totalExecutionTime st + executionTime)%Z;
     memoryUsage := heap;
     cacheHits := cacheHits st;
     cacheMisses := cacheMisses st |}.

(** The constructor, for a process whose working directory is [cwd] and
    whose environment is [env] *)
Definition new (cwd : string) (env : gmap string string) (now : Z)
    : NexusShell :=
  {| state :=
       {| isRunning := false;
          currentDirectory := cwd;
          environment := env;
          aliases := ∅;
          plugins := [];
          stats := {| commandsExecuted := 0; totalExecutionTime := 0;
                      memoryUsage := 0; cacheHits := 0; cacheMisses := 0 |};
          securityContext := Security.empty;
          commandEngine := Engine.empty;
          executionRecorder := Recorder.empty (cwd +:+ "/.nexus/recordings");
          clock := now;
          process_cwd := cwd;
          host_log := [] |};
     transactionStack := [] |}.

Definition with_isRunning (b : bool) (s : ShellState) : ShellState :=
  {| isRunning := b;
     currentDirectory := currentDirectory s;
     environment := environment s;
     aliases := aliases s;
     plugins := plugins s;
     stats := stats s;
     securityContext := securityContext s;
     commandEngine := commandEngine s;
     executionRecorder := executionRecorder s;
     clock := clock s;
     process_cwd := process_cwd s;
     host_log := host_log s |}.

(** [start()] up to the point where the prompt is shown: the security
    context is initialised and the shell is marked as running. *)
Definition start : M unit :=
  let! running := gets isRunning in
  if running then throw (Error "Shell is already running")
  else Security.initialize >> modify (with_isRunning true).

Definition executeCommand (input : string) (context : gmap string value)
    : M value :=
  let! running := gets isRunning in
  if negb running then throw (Error "Shell is not running")
  else
    let! startTime := Date_now in
    modify (with_stats (with_commandsExecuted Z.succ)) >>
    catch
      (Security.checkPermission "command:execute" {[ "input" := VStr input ]} >>
       let! recording := Recorder.isRecording in
       (if recording then Recorder.recordCommand input context else ret tt) >>
       let! result := Engine.execute input context in
       let! finished := Date_now in
       modify (with_stats
                 (with_timing (finished - startTime) (heapUsed finished))) >>
       ret result)
      (fun error => throw error).

Definition createSnapshot (s : ShellState) : ShellSnapshot :=
  {| ss_timestamp := clock s;
     ss_currentDirectory := currentDirectory s;
     ss_environment := environment s;
     ss_aliases := aliases s |}.

Definition restoreSnapshot (snapshot : ShellSnapshot) : M unit :=
  modify (fun s =>
    {| isRunning := isRunning s;
       currentDirectory := ss_currentDirectory snapshot;
       environment := ss_environment snapshot;
       aliases := ss_aliases snapshot;
       plugins := plugins s;
       stats := stats s;
       securityContext := securityContext s;
       commandEngine := commandEngine s;
       executionRecorder := executionRecorder s;
       clock := clock s;
       process_cwd := process_cwd s;
       host_log := host_log s |}).

(** Running a method of the shell state inside the whole shell *)
Definition on_state {A} (m : M A) (sh : NexusShell) : outcome A * NexusShell :=
  let '(o, s') := m (state sh) in
  (o, {| state := s'; transactionStack := transactionStack sh |}).

(** [this.transactionStack.find(tx => tx.id === transactionId)] *)
Definition findTransaction (transactionId : string)
    (stack : list Transaction) : option Transaction :=
  List.find (fun tx => String.eqb (tx_id tx) transactionId) stack.

Definition rollbackTransaction (transactionId : string) (sh : NexusShell)
    : outcome unit * NexusShell :=
  match findTransaction transactionId (transactionStack sh) with
  | None =>
      (Throw (Error ("Transaction " +:+ transactionId +:+ " not found")), sh)
  | Some transaction =>
      on_state
        (restoreSnapshot (tx_snapshot transaction) >>
         match onRollback (tx_options transaction) with
         | Some callback =>
             callback (tx_id transaction) (tx_snapshot transaction)
                      (tx_commands transaction)
         | None => ret tt
         end)
        sh
  end.

(** The [for (const command of commands)] loop of [executeTransaction] *)
Fixpoint runCommands (commands : list string) : M (list value) :=
  match commands with
  | [] => ret []
  | command :: rest =>
      let! result := executeCommand command ∅ in
      let! results := runCommands rest in
      ret (result :: results)
  end.

(** [`tx_${Date.now()}_${Math.random().toString(36).substr(2, 9)}`];
    [rnd] is the random suffix. *)
Definition transactionId (now : Z) (rnd : string) : string :=
  "tx_" +:+ Js.of_int now +:+ "_" +:+ rnd.

Definition executeTransaction (commands : list string)
    (options : TransactionOptions) (rnd : string) (sh : NexusShell)
    : outcome (list value) * NexusShell :=
  let transactionId := transactionId (clock (state sh)) rnd in
  let snapshot := createSnapshot (state sh) in
  let pushed :=
    {| state := state sh;
       transactionStack :=
         transactionStack sh ++
         [ {| tx_id := transactionId;
              tx_snapshot := snapshot;
              tx_commands := commands;
              tx_options := options |} ] |} in
  match on_state (runCommands commands) pushed with
  | (Ok results, sh') =>
      (Ok results,
       {| state := state sh';
          transactionStack := removelast (transactionStack sh') |})
  | (Throw error, sh') =>
      match rollbackTransaction transactionId sh' with
      | (Ok _, sh'') => (Throw error, sh'')
      | (Throw error', sh'') => (Throw error', sh'')
      end
  end.

(** The mutable shell state a transaction protects *)
Definition triple (s : ShellState)
    : string * gmap string string * gmap string string :=
  (currentDirectory s, environment s, aliases s).

End Shell.
End Shell.

(** ** A regular-expression engine for permission patterns

    The sources of the regular expressions built by [hasPermission] from
    the patterns of the repository are made of ordinary characters, [.]
    and [*]. [RegExp.test] implements ECMAScript's [RegExp.prototype.test]
    on such sources: an unanchored search, [.] matching any character but
    a line terminator, [*] repeating the atom before it, and a [SyntaxError]
    when a [*] has nothing to repeat. A source with another syntax
    character is not in its domain and is refused. *)

Module RegExp.

Inductive atom := Lit (c : ascii) | AnyChar.

Definition is_syntax (c : ascii) : bool :=
  Js.includes (String c EmptyString) "\^$+?()[]{}|".

Definition is_line_terminator (c : ascii) : bool :=
  match N_of_ascii c with 10%N | 13%N => true | _ => false end.

Definition atom_of (c : ascii) : atom :=
  if Ascii.eqb c "." then AnyChar else Lit c.

Definition atom_matches (a : atom) (c : ascii) : bool :=
  match a with
  | Lit d => Ascii.eqb c d
  | AnyChar => negb (is_line_terminator c)
  end.

(** The pattern as a sequence of atoms, each one starred or not *)
Inductive parsed : Type :=
| Items (items : list (atom * bool))
| NothingToRepeat
| Unsupported.

Definition cons_item (i : atom * bool) (p : parsed) : parsed :=
  match p with
  | Items items => Items (i :: items)
  | other => other
  end.

Fixpoint parse (source : string) : parsed :=
  match source with
  | EmptyString => Items []
  | String c r =>
      if Ascii.eqb c "*" then NothingToRepeat
      else if is_syntax c then Unsupported
      else
        match r with
        | String "*" r' => cons_item (atom_of c, true) (parse r')
        | _ => cons_item (atom_of c, false) (parse r)
        end
  end.

(** A match of the whole pattern starting at the head of [s] *)
Fixpoint match_here (items : list (atom * bool)) (s : string) : bool :=
  match items with
  | [] => true
  | (a, false) :: rest =>
      match s with
      | EmptyString => false
      | String c s' => atom_matches a c && match_here rest s'
      end
  | (a, true) :: rest =>
      (fix star (s : string) : bool :=
         match_here rest s ||
         match s with
         | EmptyString => false
         | String c s' => atom_matches a c && star s'
         end) s
  end.

Fixpoint search (items : list (atom * bool)) (s : string) : bool :=
  match_here items s ||
  match s with
  | EmptyString => false
  | String _ s' => search items s'
  end.

Definition test (source subject : string) : outcome bool :=
  match parse source with
  | Items items => Ok (search items subject)
  | NothingToRepeat =>
      Throw (SyntaxError ("Invalid regular expression: /" +:+ source
                          +:+ "/: Nothing to repeat"))
  | Unsupported =>
      Throw (Error "regular expression outside the modelled fragment")
  end.

End RegExp.

(** ** A host for the end-to-end scenarios of the specification

    Built-in commands [cd], [pwd], [date] and [export] as registered by
    the repository's [registerCoreCommands], reduced to their effect on
    the shell state; the child programs [true] and [echo], which exit with
    code 0, and [false], which exits with code 1; any other program, such
    as [nonexistent-command], cannot be spawned. *)

Module Scenario.

Definition with_currentDirectory (d : string) (s : ShellState) : ShellState :=
  {| isRunning := isRunning s;
     currentDirectory := d;
     environment := environment s;
     aliases := aliases s;
     plugins := plugins s;
     stats := stats s;
     securityContext := securityContext s;
     commandEngine := commandEngine s;
     executionRecorder := executionRecorder s;
     clock := clock s;
     process_cwd := d;
     host_log := host_log s |}.

Definition with_environment (f : gmap string string -> gmap string string)
    (s : ShellState) : ShellState :=
  {| isRunning := isRunning s;
     currentDirectory := currentDirectory s;
     environment := f (environment s);
     aliases := aliases s;
     plugins := plugins s;
     stats := stats s;
     securityContext := securityContext s;
     commandEngine := commandEngine s;
     executionRecorder := executionRecorder s;
     clock := clock s;
     process_cwd := process_cwd s;
     host_log := host_log s |}.

(** [cd <absolute path>]: the directory exists. *)
Definition cd (args : list string) : M value :=
  match args with
  | target :: _ =>
      modify (with_currentDirectory target) >>
      ret (VStr ("Changed directory to: " +:+ target))
  | [] => throw (Error "Cannot change directory: no target")
  end.

Definition pwd : M value :=
  let! d := gets currentDirectory in ret (VStr d).

Definition date : M value :=
  let! now := Date_now in ret (VStr (Js.of_int now)).

(** [export KEY=VALUE], first argument only *)
Definition export (args : list string) : M value :=
  match args with
  | arg :: _ =>
      match Js.split "=" arg with
      | key :: v :: _ =>
          modify (with_environment (insert key v)) >>
          ret (VStr ("Exported: " +:+ arg))
      | _ => throw (Error ("Invalid assignment: " +:+ arg))
      end
  | [] => throw (Error "Variable assignment required (KEY=VALUE)")
  end.

Definition handlers (name : string) (args : list string)
    (flags context : gmap string value) : M value :=
  if String.eqb name "cd" then cd args
  else if String.eqb name "pwd" then pwd
  else if String.eqb name "date" then date
  else if String.eqb name "export" then export args
  else throw (Error "no handler").

Definition children (calls : list host_op) (op : host_op) : child_exit :=
  match op with
  | Spawn command _ _ _ _ =>
      if String.eqb command "false" then Closed (Some 1%Z) EmptyString EmptyString
      else if String.eqb command "true" then Closed (Some 0%Z) EmptyString EmptyString
      else if String.eqb command "echo" then Closed (Some 0%Z) EmptyString EmptyString
      else SpawnError (Error ("spawn " +:+ command +:+ " ENOENT"))
  | _ => SpawnError (Error "not a child process")
  end.

Definition answers (calls : list host_op) (op : host_op) : outcome value :=
  match op with
  | ProcessKill _ _ => Ok (VBool true)
  | _ => Ok VUndefined
  end.

#[local] Instance host : Host :=
  {| regexp_test := RegExp.test;
     child := children;
     respond := answers;
     handler := handlers;
     evaluate := fun _ _ => throw (Error "script evaluation is not provided");
     systemState := fun now => VObj [ ("timestamp", VNum now) ];
     heapUsed := fun _ => 0%Z |}.

(** [registerCoreCommands], the four commands above *)
Definition registerCoreCommands : M unit :=
  Engine.registerCommand "cd" "Change current directory" [] >>
  Engine.registerCommand "pwd" "Print working directory" [] >>
  Engine.registerCommand "date" "Show current date and time" [] >>
  Engine.registerCommand "export" "Set environment variables" [] >>
  ret tt.

(** A fresh shell in [/home/u] at time 1000 *)
Definition fresh : NexusShell := Shell.new "/home/u" ∅ 1000.

(** ... after [registerCoreCommands(shell)] and [shell.start()] *)
Definition started : ShellState :=
  snd ((registerCoreCommands >> Shell.start) (state fresh)).

(** ... after [securityContext.applyPolicy('sandbox')] *)
Definition sandboxed : ShellState :=
  snd (Security.applyPolicy "sandbox" started).

(** The line [ls "a b".txt] *)
Definition ls_quoted : string :=
  "ls " +:+ Js.quote +:+ "a b" +:+ Js.quote +:+ ".txt".

(** The line [echo "a|b"] *)
Definition echo_quoted_bar : string :=
  "echo " +:+ Js.quote +:+ "a|b" +:+ Js.quote.

End Scenario.

(** ** The specification's reading of a line

    Definitions written from the words of the specification, for the
    comparison with [CommandEngine]. *)

Module Spec.

(** The states of the tokeniser of section 4.1 that matter for quoting *)
Inductive lexer_state := normal | in_single_quote | in_double_quote.

(** Whether the rest of a line, read in a given state, has a [|] that is
    outside quotes and is not part of [||]. [after_bar] tells that the
    previous character was a [|] read in state [normal]. A backslash in a
    double-quoted string escapes the next character. *)
Fixpoint top_level_pipe_from (st : lexer_state) (after_bar : bool)
    (s : string) : bool :=
  match s with
  | EmptyString => false
  | String c r =>
      match st with
      | normal =>
          if Ascii.eqb c "|" then
            (negb after_bar && negb (Js.startsWith "|" r)) ||
            top_level_pipe_from normal true r
          else if Ascii.eqb c "'" then
            top_level_pipe_from in_single_quote false r
          else if Ascii.eqb c "034" then
            top_level_pipe_from in_double_quote false r
          else top_level_pipe_from normal false r
      | in_single_quote =>
          if Ascii.eqb c "'" then top_level_pipe_from normal false r
          else top_level_pipe_from in_single_quote false r
      | in_double_quote =>
          if Ascii.eqb c "034" then top_level_pipe_from normal false r
          else if Ascii.eqb c "092" then
            match r with
            | EmptyString => false
            | String _ r' => top_level_pipe_from in_double_quote false r'
            end
          else top_level_pipe_from in_double_quote false r
      end
  end.

(** Section 4.1: a traditional line containing [|] at top level (not
    inside quotes, not [||]) is a pipeline. *)
Definition is_pipeline (line : string) : bool :=
  top_level_pipe_from normal false line.

(** Section 4.2: non-zero exit is surfaced as success=false but not as a
    thrown error; the call returns a map whose [success] is [false]. *)
Definition returns_failure_map (r : outcome value * ShellState) : Prop :=
  exists v, fst r = Ok v /\ prop "success" v = Some (VBool false).


End Spec.

(** ** [SecurityContext.createSandbox] *)

Module Sandbox.
Section Sandbox.
Context `{Host}.

(** [permissions.some(p => p.includes('*') &&
    new RegExp(p.replace('*', '.*')).test(permission))] *)
Fixpoint someWildcard (permissions : list string) (permission : string)
    : outcome bool :=
  match permissions with
  | [] => Ok false
  | p :: rest =>
      if Js.includes "*" p then
        match regexp_test (Js.replace "*" ".*" p) permission with
        | Ok true => Ok true
        | Ok false => someWildcard rest permission
        | Throw e => Throw e
        end
      else someWildcard rest permission
  end.

(** The [checkPermission] closure of the object returned by
    [createSandbox(permissions)]:
    [permissions.includes(permission) || permissions.some(...)]. *)
Definition checkPermission (permissions : list string) (permission : string)
    : outcome bool :=
  if existsb (String.eqb permission) permissions then Ok true
  else someWildcard permissions permission.

End Sandbox.
End Sandbox.

(** ** [utils.parseArgs] of the object bridge *)

Module Utils.

(** The body of the loop of [parseArgs] on one argument. [parsed] is the
    object under construction; a positional argument is pushed on
    [parsed._], which throws when a flag named [_] has replaced the array. *)
Definition parseArg (parsed : gmap string value) (arg : string)
    : outcome (gmap string value) :=
  if Js.startsWith "--" arg then
    let pieces := Js.split "=" (Js.slice 2 arg) in
    let key := match pieces with k :: _ => k | [] => EmptyString end in
    let value :=
      match pieces with
      | _ :: v :: _ => if Js.is_empty v then VBool true else VStr v
      | _ => VBool true
      end in
    Ok (<[key := value]> parsed)
  else if Js.startsWith "-" arg then
    Ok (<[Js.slice 1 arg := VBool true]> parsed)
  else
    match parsed !! "_" with
    | Some (VList items) => Ok (<["_" := VList (items ++ [VStr arg])]> parsed)
    | _ => Throw (TypeError "parsed._.push is not a function")
    end.

Fixpoint parseFrom (args : list string) (parsed : gmap string value)
    : outcome (gmap string value) :=
  match args with
  | [] => Ok parsed
  | arg :: rest =>
      match parseArg parsed arg with
      | Ok parsed' => parseFrom rest parsed'
      | Throw e => Throw e
      end
  end.

(** [utils.parseArgs(args)], starting from [{ _: [] }] *)
Definition parseArgs (args : list string) : outcome (gmap string value) :=
  parseFrom args {[ "_" := VList [] ]}.

End Utils.

(** ** The [export] and [unset] commands of [registerCoreCommands]

    The handlers as registered, on the shell's [environment]. Their mirror
    writes to [process.env] are outside the modelled state. *)

Module Commands.

(** [pieces.join(sep)] *)
Fixpoint join (sep : string) (pieces : list string) : string :=
  match pieces with
  | [] => EmptyString
  | [p] => p
  | p :: rest => p +:+ sep +:+ join sep rest
  end.

Definition newline : string := String "010" EmptyString.

(** The property names every plain object inherits from
    [Object.prototype]: reading one of them from [shell.environment] gives
    a value other than [undefined] also when the variable was never set. *)
Definition prototype_names : list string :=
  [ "constructor"; "__defineGetter__"; "__defineSetter__"; "hasOwnProperty";
    "__lookupGetter__"; "__lookupSetter__"; "isPrototypeOf";
    "propertyIsEnumerable"; "toString"; "valueOf"; "__proto__";
    "toLocaleString" ].

Definition inherited (key : string) : bool :=
  existsb (String.eqb key) prototype_names.

(** [shell.environment[key] = value]: the assignment to [__proto__] of a
    string sets no property. *)
Definition assign (key value : string) (env : gmap string string)
    : gmap string string :=
  if String.eqb key "__proto__" then env else <[key := value]> env.

(** The [for (const arg of args)] loop of [export] *)
Fixpoint exportEach (args results : list string) : M (list string) :=
  match args with
  | [] => ret results
  | arg :: rest =>
      let pieces := Js.split "=" arg in
      let key := hd EmptyString pieces in
      let value := join "=" (tl pieces) in
      if Js.is_empty key then throw (Error ("Invalid assignment: " +:+ arg))
      else
        modify (Scenario.with_environment (assign key value)) >>
        exportEach rest
          (results ++ ["Exported: " +:+ key +:+ "=" +:+ value])
  end.

Definition export (args : list string) : M value :=
  match args with
  | [] => throw (Error "Variable assignment required (KEY=VALUE)")
  | _ =>
      let! results := exportEach args [] in
      ret (VStr (join newline results))
  end.

(** The [for (const key of args)] loop of [unset]; the test is
    [shell.environment[key] !== undefined], and [delete] removes an own
    property only. *)
Fixpoint unsetEach (args results : list string) : M (list string) :=
  match args with
  | [] => ret results
  | key :: rest =>
      let! env := gets environment in
      if bool_decide (is_Some (env !! key)) || inherited key then
        modify (Scenario.with_environment (delete key)) >>
        unsetEach rest (results ++ ["Unset: " +:+ key])
      else
        unsetEach rest (results ++ ["Variable not found: " +:+ key])
  end.

Definition unset (args : list string) : M value :=
  match args with
  | [] => throw (Error "Variable name required")
  | _ =>
      let! results := unsetEach args [] in
      ret (VStr (join newline results))
  end.

End Commands.

(** ** [PerformanceMonitor]: the bounded series of samples *)

Record LatencySample := { ls_timestamp : Z; ls_latency : Z }.

Record MemorySample := {
  ms_timestamp : Z;
  ms_heapUsed : Z;
  ms_heapTotal : Z;
  ms_external : Z;
  ms_rss : Z
}.

Record Metrics := {
  pm_commandLatency : list LatencySample;
  pm_memoryUsage : list MemorySample;
  pm_commandThroughput : Z;
  pm_errors : Z;
  pm_warnings : Z
}.

Record Thresholds := {
  th_memoryWarning : Z;
  th_memoryError : Z;
  th_latencyWarning : Z;
  th_latencyError : Z
}.

Module Monitor.

(** The constructor's thresholds *)
Definition defaults : Thresholds :=
  {| th_memoryWarning := 40 * 1024 * 1024;
     th_memoryError := 60 * 1024 * 1024;
     th_latencyWarning := 1000;
     th_latencyError := 5000 |}.

(** The constructor's, and [resetMetrics]', metrics *)
Definition empty : Metrics :=
  {| pm_commandLatency := [];
     pm_memoryUsage := [];
     pm_commandThroughput := 0;
     pm_errors := 0;
     pm_warnings := 0 |}.

(** [if (series.length > 100) series.shift()] *)
Definition keepLast100 {A} (series : list A) : list A :=
  if Nat.ltb 100 (List.length series) then tl series else series.

(** [recordCommandLatency(latency)] at time [now] *)
Definition recordCommandLatency (th : Thresholds) (now latency : Z)
    (m : Metrics) : Metrics :=
  let series :=
    keepLast100 (pm_commandLatency m ++
                 [ {| ls_timestamp := now; ls_latency := latency |} ]) in
  {| pm_commandLatency := series;
     pm_memoryUsage := pm_memoryUsage m;
     pm_commandThroughput := pm_commandThroughput m;
     pm_errors :=
       if (th_latencyError th <? latency)%Z then (pm_errors m + 1)%Z
       else pm_errors m;
     pm_warnings :=
       if (th_latencyError th <? latency)%Z then pm_warnings m
       else if (th_latencyWarning th <? latency)%Z then (pm_warnings m + 1)%Z
       else pm_warnings m |}.

(** [recordMemoryUsage()] for a given [process.memoryUsage()] *)
Definition recordMemoryUsage (th : Thresholds) (usage : MemorySample)
    (m : Metrics) : Metrics :=
  {| pm_commandLatency := pm_commandLatency m;
     pm_memoryUsage := keepLast100 (pm_memoryUsage m ++ [usage]);
     pm_commandThroughput := pm_commandThroughput m;
     pm_errors :=
       if (th_memoryError th <? ms_heapUsed usage)%Z then (pm_errors m + 1)%Z
       else pm_errors m;
     pm_warnings :=
       if (th_memoryError th <? ms_heapUsed usage)%Z then pm_warnings m
       else if (th_memoryWarning th <? ms_heapUsed usage)%Z
            then (pm_warnings m + 1)%Z
       else pm_warnings m |}.

(** The entry [recordCommandLatency(latency)] pushes at time [now], for
    the pair [(now, latency)] *)
Definition sample (call : Z * Z) : LatencySample :=
  {| ls_timestamp := fst call; ls_latency := snd call |}.

(** A run of [recordCommandLatency] calls, oldest first *)
Definition recordLatencies (th : Thresholds) (samples : list (Z * Z))
    (m : Metrics) : Metrics :=
  fold_left (fun m sample => recordCommandLatency th (fst sample) (snd sample) m)
            samples m.

End Monitor.

(** ** [REPL]: the input line handler and its history *)

Record Repl := {
  repl_history : list string;
  repl_multilineBuffer : string;
  repl_inMultilineMode : bool
}.

Module Repl.
Section Repl.
Context `{Host}.

(** [executeInput], the method [handleInput] hands a complete command to *)
Variable executeInput : string -> Repl -> M Repl.

(** [addToHistory(input)]: no empty entry, no repeat of the last entry, at
    most 1000 entries. *)
Definition addToHistory (input : string) (r : Repl) : Repl :=
  if negb (Js.is_empty input) &&
     negb (match last (repl_history r) with
           | Some l => String.eqb input l
           | None => false
           end)
  then
    let pushed := repl_history r ++ [input] in
    {| repl_history :=
         if Nat.ltb 1000 (List.length pushed) then tl pushed else pushed;
       repl_multilineBuffer := repl_multilineBuffer r;
       repl_inMultilineMode := repl_inMultilineMode r |}
  else r.

(** [s.endsWith(c)] for one character *)
Fixpoint endsWith (c : ascii) (s : string) : bool :=
  match s with
  | EmptyString => false
  | String d EmptyString => Ascii.eqb d c
  | String _ r => endsWith c r
  end.

Definition isMultilineStart (input : string) : bool :=
  endsWith "{" input || endsWith "[" input || endsWith "(" input ||
  Js.includes "function" input || Js.includes "if (" input ||
  Js.includes "for (" input || Js.includes "while (" input ||
  Js.includes "try {" input.

(** [handleInput(input)] *)
Definition handleInput (input : string) (r : Repl) : M Repl :=
  let trimmedInput := Js.trim input in
  if Js.is_empty trimmedInput then ret r
  else if repl_inMultilineMode r then
    if Js.is_empty trimmedInput then
      let! r' := executeInput (repl_multilineBuffer r) r in
      ret {| repl_history := repl_history r';
             repl_multilineBuffer := EmptyString;
             repl_inMultilineMode := false |}
    else
      ret {| repl_history := repl_history r;
             repl_multilineBuffer :=
               repl_multilineBuffer r +:+ Commands.newline +:+ input;
             repl_inMultilineMode := repl_inMultilineMode r |}
  else if isMultilineStart trimmedInput then
    ret {| repl_history := repl_history r;
           repl_multilineBuffer := input;
           repl_inMultilineMode := true |}
  else executeInput trimmedInput r.

(** The lines of the ['line'] events of the readline interface, handled
    one after the other *)
Fixpoint handleInputs (inputs : list string) (r : Repl) : M Repl :=
  match inputs with
  | [] => ret r
  | input :: rest =>
      let! r' := handleInput input r in
      handleInputs rest r'
  end.

End Repl.

(** No entry of the history equals the entry after it *)
Fixpoint distinct_neighbours (history : list string) : bool :=
  match history with
  | a :: (b :: _) as rest => negb (String.eqb a b) && distinct_neighbours rest
  | _ => true
  end.

End Repl.

(** ** Patterns of ordinary characters *)

Module Plain.

(** A character with no meaning in a regular expression *)
Definition is_plain (c : ascii) : bool :=
  negb (Ascii.eqb c "*") && negb (Ascii.eqb c ".") &&
  negb (RegExp.is_syntax c).

(** The atoms of a pattern of ordinary characters *)
Fixpoint literals (k : string) : list (RegExp.atom * bool) :=
  match k with
  | EmptyString => []
  | String c r => (RegExp.Lit c, false) :: literals r
  end.




End Plain.

(** ** Entries of the audit log *)

Module Audit.

(** The entry [checkPermission(permission, context)] writes at time [now]
    for a decision [granted] *)
Definition entry (now : Z) (context : gmap string value) (granted : bool)
    (permission : string) : AuditEntry :=
  {| audit_timestamp := now;
     audit_permission := permission;
     audit_context := context;
     audit_granted := granted;
     audit_source := Security.source_of context |}.

(** The shell with [entries] added at the end of its audit log *)
Definition logged (entries : list AuditEntry) (s : ShellState) : ShellState :=
  with_securityContext
    (Security.with_auditLog (fun log => log ++ entries)) s.

End Audit.

(** ** A recording session

    The calls a caller of the recorder makes between [startRecording] and
    [stopRecording]. *)

Module Session.
Section Session.
Context `{Host}.

(** [recordCommand(input, context)] for each input in turn *)
Fixpoint recordCommands (inputs : list string)
    (context : gmap string value) : M unit :=
  match inputs with
  | [] => ret tt
  | input :: rest =>
      Recorder.recordCommand input context >> recordCommands rest context
  end.

(** The recorder is recording into the object at address [a], whose
    content is [cur]. *)
Definition recording_into (s : ShellState) (a : nat) (cur : Recording)
    : Prop :=
  rec_recording (executionRecorder s) = true /\
  rec_currentRecording (executionRecorder s) = Some a /\
  rec_objects (executionRecorder s) !! a = Some cur.

(** The records of the inputs, numbered from [first], taken at time [now] *)
Fixpoint records (first : nat) (now : Z) (context : gmap string value)
    (inputs : list string) : list CommandRecord :=
  match inputs with
  | [] => []
  | input :: rest =>
      {| cr_id := first;
         cr_timestamp := now;
         cr_input := input;
         cr_context := context;
         cr_systemState := systemState now;
         cr_result := None;
         cr_error := None;
         cr_executionTime := None |} :: records (S first) now context rest
  end.

(** A record after the three assignments of [recordCommandResult] *)
Definition answered (result : value) (error : option exn) (now : Z)
    (c : CommandRecord) : CommandRecord :=
  {| cr_id := cr_id c;
     cr_timestamp := cr_timestamp c;
     cr_input := cr_input c;
     cr_context := cr_context c;
     cr_systemState := cr_systemState c;
     cr_result := Some result;
     cr_error := Some error;
     cr_executionTime := Some (now - cr_timestamp c)%Z |}.

End Session.
End Session.

(** * Properties *)

(** Unfolding the combinators of [M] *)
Ltac unfold_M :=
  unfold bind, ret, throw, catch, gets, modify, lift, Date_now in *.

(** ** Strings *)

Lemma trimStart_blank (s : string) :
  Js.all_chars Js.is_space s = true -> Js.trimStart s = EmptyString.
Proof.
  induction s as [|c r IH]; simpl; [reflexivity|].
  intros Hall. apply andb_true_iff in Hall as [Hc Hr].
  rewrite Hc. exact (IH Hr).
Qed.

Lemma trim_blank (s : string) :
  Js.all_chars Js.is_space s = true -> Js.trim s = EmptyString.
Proof.
  intros Hall. unfold Js.trim. rewrite (trimStart_blank s Hall). reflexivity.
Qed.

Lemma split_nonempty (sep : ascii) (s : string) : Js.split sep s <> [].
Proof.
  destruct s as [|c r]; simpl; [discriminate|].
  destruct (Ascii.eqb c sep); [discriminate|].
  destruct (Js.split sep r); discriminate.
Qed.

(** No piece of [s.split(sep)] contains the separator. *)
Lemma split_pieces (sep : ascii) (s p : string) :
  In p (Js.split sep s) -> Js.count sep p = 0.
Proof.
  revert p. induction s as [|c r IH]; simpl; intros p Hin.
  - destruct Hin as [<-|[]]. reflexivity.
  - destruct (Ascii.eqb c sep) eqn:Hc.
    + destruct Hin as [<-|Hin]; [reflexivity|]. apply IH, Hin.
    + destruct (Js.split sep r) as [|h t] eqn:Hs.
      * destruct Hin as [<-|[]]. simpl. rewrite Hc. reflexivity.
      * destruct Hin as [<-|Hin].
        -- simpl. rewrite Hc. simpl. apply IH. left. reflexivity.
        -- apply IH. right. exact Hin.
Qed.

(** [s.split(sep)] has one piece more than [s] has separators. *)
Lemma split_length (sep : ascii) (s : string) :
  List.length (Js.split sep s) = S (Js.count sep s).
Proof.
  induction s as [|c r IH]; simpl; [reflexivity|].
  destruct (Ascii.eqb c sep); simpl.
  - rewrite IH. reflexivity.
  - destruct (Js.split sep r) as [|h t]; simpl in *; [discriminate|].
    exact IH.
Qed.

Lemma prefix_char (c : ascii) (s : string) :
  String.prefix (String c EmptyString) s =
  match s with
  | EmptyString => false
  | String d _ => Ascii.eqb d c
  end.
Proof.
  destruct s as [|d r]; simpl; [reflexivity|].
  destruct (ascii_dec c d) as [->|Hne].
  - rewrite Ascii.eqb_refl. destruct r; reflexivity.
  - symmetry. apply Ascii.eqb_neq. congruence.
Qed.

(** [s.includes(c)] for a one-character [c] counts occurrences. *)
Lemma includes_char (c : ascii) (s : string) :
  Js.includes (String c EmptyString) s = negb (Nat.eqb (Js.count c s) 0).
Proof.
  induction s as [|d r IH].
  - reflexivity.
  - cbn [Js.includes Js.count]. rewrite prefix_char, IH.
    destruct (Ascii.eqb d c); reflexivity.
Qed.

(** ** [parseCommand] *)

Lemma parsePart_args (acc : list string * gmap string value)
    (part a : string) :
  In a (fst (Engine.parsePart acc part)) -> In a (fst acc) \/ a = part.
Proof.
  destruct acc as [args flags]. unfold Engine.parsePart.
  destruct (Js.startsWith "--" part); [simpl; auto|].
  destruct (Js.startsWith "-" part); [simpl; auto|].
  simpl. rewrite in_app_iff. simpl. intuition.
Qed.

Lemma fold_parsePart_args (parts : list string) :
  forall (acc : list string * gmap string value) (a : string),
    In a (fst (fold_left Engine.parsePart parts acc)) ->
    In a (fst acc) \/ In a parts.
Proof.
  induction parts as [|p ps IH]; simpl; intros acc a Hin; [auto|].
  destruct (IH _ _ Hin) as [Hacc|Hps]; [|auto].
  destruct (parsePart_args _ _ _ Hacc); auto.
Qed.

Lemma parseCommand_args (input : string) :
  pc_args (Engine.parseCommand input) =
  fst (fold_left Engine.parsePart (tl (Engine.parts_of input)) ([], ∅)).
Proof.
  unfold Engine.parseCommand.
  destruct (fold_left Engine.parsePart _ _) as [args flags]. reflexivity.
Qed.

(** C3, as the code has it. [parseCommand] knows no quotes: every
    positional argument is one of the pieces of [input.split(' ')], taken
    as written, and so holds no space. *)
Theorem parseCommand_args_are_split_pieces (input a : string) :
  In a (pc_args (Engine.parseCommand input)) ->
  In a (Js.split " " input) /\ Js.count " " a = 0.
Proof.
  rewrite parseCommand_args. intros Hin.
  apply fold_parsePart_args in Hin as [[]|Hin].
  assert (Hsplit : In a (Js.split " " input)).
  { assert (Hparts : In a (Engine.parts_of input)).
    { destruct (Engine.parts_of input); [destruct Hin|right; exact Hin]. }
    unfold Engine.parts_of in Hparts.
    apply List.filter_In in Hparts. tauto. }
  split; [exact Hsplit|]. exact (split_pieces _ _ _ Hsplit).
Qed.

Lemma parseCommand_args_are_split_pieces_witness :
  In (Js.quote +:+ "a") (pc_args (Engine.parseCommand Scenario.ls_quoted)) /\
  In (Js.quote +:+ "a") (Js.split " " Scenario.ls_quoted) /\
  Js.count " " (Js.quote +:+ "a") = 0.
Proof.
  assert (Hin : In (Js.quote +:+ "a")
                   (pc_args (Engine.parseCommand Scenario.ls_quoted))).
  { vm_compute. left. reflexivity. }
  split; [exact Hin|].
  exact (parseCommand_args_are_split_pieces _ _ Hin).
Defined.

(** C3, as the specification has it, fails on [ls "a b".txt]: the line
    gives two positional arguments, each with its quote character, and
    not the single argument [a b.txt]. *)
Lemma parseCommand_quoted_token_is_split :
  pc_args (Engine.parseCommand Scenario.ls_quoted) =
    [Js.quote +:+ "a"; "b" +:+ Js.quote +:+ ".txt"] /\
  pc_args (Engine.parseCommand Scenario.ls_quoted) <> ["a b.txt"].
Proof.
  split; [reflexivity|]. vm_compute. discriminate.
Qed.

(** ** [CommandEngine.execute] *)

(** C10. A line that is empty or made of white space only returns [null]
    and leaves the whole shell as it was: nothing is added to the command
    history and no command, child or script is run. *)
Theorem execute_blank_returns_null `{Host} (input : string)
    (context : gmap string value) (s : ShellState) :
  Js.all_chars Js.is_space input = true ->
  Engine.execute input context s = (Ok VNull, s).
Proof.
  intros Hblank. unfold Engine.execute.
  rewrite (trim_blank input Hblank). reflexivity.
Qed.

Lemma execute_blank_returns_null_witness :
  Js.all_chars Js.is_space (String " " (String "009" (String " " EmptyString)))
    = true /\
  @Engine.execute Scenario.host
    (String " " (String "009" (String " " EmptyString))) ∅ Scenario.started
  = (Ok VNull, Scenario.started).
Proof.
  split; [reflexivity|].
  apply (@execute_blank_returns_null Scenario.host). reflexivity.
Defined.

(** C4, as the code has it. After trimming, a line that is not empty is
    run as a pipeline exactly when it holds a [|] character, wherever it
    stands, and then it has one stage more than it has [|] characters. *)
Theorem execute_pipeline_iff_bar `{Host} (input : string)
    (context : gmap string value) :
  let t := Js.trim input in
  Engine.execute input context =
  if Js.is_empty t then ret VNull
  else
    (Engine.pushHistory t context >>
     match Js.count "|" t with
     | O =>
         if Engine.isObjectPipelineMode t
         then Engine.executeObjectPipeline t context
         else Engine.executeSingleCommand t context
     | S n =>
         Engine.runStages (map Js.trim (Js.split "|" t)) 0 (S (S n))
                          context VNull
     end)%sh.
Proof.
  intros t. unfold Engine.execute. fold t.
  destruct (Js.is_empty t); [reflexivity|].
  rewrite (includes_char "|" t).
  destruct (Js.count "|" t) as [|n] eqn:Hcount; [reflexivity|].
  cbn [Nat.eqb negb]. unfold Engine.executePipeline, Engine.stages_of.
  rewrite length_map, split_length, Hcount. reflexivity.
Qed.

(** C4, as the specification has it, fails on [echo "a|b"] and on
    [true || false]: neither has a [|] at top level. The engine cuts the
    first inside the quotes and spawns [echo] and then the rest of the
    quoted word; it cuts the
    second into three stages, the middle one empty, and fails on it after
    running [true]. *)
Lemma execute_splits_quoted_bar :
  Spec.is_pipeline Scenario.echo_quoted_bar = false /\
  Engine.stages_of (Js.trim Scenario.echo_quoted_bar) =
    ["echo " +:+ Js.quote +:+ "a"; "b" +:+ Js.quote] /\
  host_log (snd (@Engine.execute Scenario.host Scenario.echo_quoted_bar ∅
                   Scenario.started)) =
    [ Spawn "echo" [Js.quote +:+ "a"] false "/home/u" ∅;
      Spawn ("b" +:+ Js.quote) [] false "/home/u" ∅ ] /\
  Spec.is_pipeline "true || false" = false /\
  Engine.stages_of (Js.trim "true || false") =
    ["true"; EmptyString; "false"] /\
  host_log (snd (@Engine.execute Scenario.host "true || false" ∅
                   Scenario.started)) =
    [ Spawn "true" [] false "/home/u" ∅ ] /\
  is_ok (fst (@Engine.execute Scenario.host "true || false" ∅
                Scenario.started)) = false.
Proof.
  repeat split; vm_compute; reflexivity.
Qed.

(** ** The permission map *)

Lemma JsMap_get_set_eq {V : Type} (k : string) (v : V)
    (m : list (string * V)) :
  JsMap.get k (JsMap.set k v m) = Some v.
Proof.
  induction m as [|[k' v'] rest IH]; simpl.
  - rewrite String.eqb_refl. reflexivity.
  - destruct (String.eqb k k') eqn:Hk; simpl; rewrite Hk; [reflexivity|exact IH].
Qed.

Lemma JsMap_get_set_ne {V : Type} (k k' : string) (v : V)
    (m : list (string * V)) :
  k <> k' -> JsMap.get k' (JsMap.set k v m) = JsMap.get k' m.
Proof.
  intros Hne. induction m as [|[k0 v0] rest IH]; simpl.
  - destruct (String.eqb k' k) eqn:Hk; [|reflexivity].
    apply String.eqb_eq in Hk. congruence.
  - destruct (String.eqb k k0) eqn:Hk; simpl.
    + apply String.eqb_eq in Hk. subst k0.
      destruct (String.eqb k' k) eqn:Hk'; [|reflexivity].
      apply String.eqb_eq in Hk'. congruence.
    + rewrite IH. reflexivity.
Qed.

(** [set] on a present key keeps every key where it is. *)
Lemma JsMap_set_keys {V : Type} (k : string) (v : V)
    (m : list (string * V)) :
  JsMap.has k m = true -> map fst (JsMap.set k v m) = map fst m.
Proof.
  unfold JsMap.has. induction m as [|[k' v'] rest IH]; simpl; [discriminate|].
  destruct (String.eqb k k') eqn:Hk; simpl; [reflexivity|].
  intros Hhas. rewrite (IH Hhas). reflexivity.
Qed.


Section Lookup.
Context `{Host}.





(** A check that reaches a decision: the new state, in full. *)
Lemma checkPermission_decided (permission : string)
    (context : gmap string value) (s : ShellState) (granted : bool) :
  Security.hasPermission (securityContext s) permission = Ok granted ->
  Security.checkPermission permission context s =
  (Ok granted,
   with_securityContext (Security.with_auditLog (fun log =>
     log ++ [ {| audit_timestamp := clock s;
                 audit_permission := permission;
                 audit_context := context;
                 audit_granted := granted;
                 audit_source := Security.source_of context |} ])) s).
Proof.
  intros Hdecision. unfold Security.checkPermission. unfold_M.
  rewrite Hdecision. reflexivity.
Qed.

(** C6, as the code has it. A check that reaches a decision returns it
    and appends one entry to the end of the audit log, with the
    permission, the decision and the time. The log keeps every earlier
    entry, however long it is: it grows by one. *)
Theorem checkPermission_appends_one_entry (permission : string)
    (context : gmap string value) (s : ShellState) (granted : bool) :
  Security.hasPermission (securityContext s) permission = Ok granted ->
  let r := Security.checkPermission permission context s in
  fst r = Ok granted /\
  sec_auditLog (securityContext (snd r)) =
    sec_auditLog (securityContext s) ++
    [ {| audit_timestamp := clock s;
         audit_permission := permission;
         audit_context := context;
         audit_granted := granted;
         audit_source := Security.source_of context |} ] /\
  List.length (sec_auditLog (securityContext (snd r))) =
    S (List.length (sec_auditLog (securityContext s))).
Proof.
  intros Hdecision r. subst r.
  rewrite (checkPermission_decided _ context _ _ Hdecision). simpl.
  rewrite length_app. simpl. repeat split. lia.
Qed.

Lemma checks_grow_log (permission : string) (granted : bool) (n : nat) :
  forall s : ShellState,
    JsMap.get permission (sec_permissions (securityContext s))
      = Some granted ->
    List.length (sec_auditLog (securityContext
                   (snd (Security.checks n permission s)))) =
    List.length (sec_auditLog (securityContext s)) + n.
Proof.
  induction n as [|n IH]; intros s Hget; cbn [Security.checks].
  - simpl. lia.
  - unfold bind at 1.
    rewrite (checkPermission_decided permission ∅ s granted)
      by (unfold Security.hasPermission; rewrite Hget; reflexivity).
    rewrite IH by exact Hget.
    simpl. rewrite length_app. simpl. lia.
Qed.

(** The methods of the bridge go on after a denied check: the call that
    was to be guarded is made. *)
Lemma denied_calls_are_performed (s : ShellState) :
  (forall pid signal,
      Security.hasPermission (securityContext s)
        ("proc:kill:" +:+ Js.of_int pid) = Ok false ->
      host_log (snd (Bridge.kill pid signal s)) =
      host_log s ++ [ProcessKill pid signal]) /\
  (forall filePath encoding,
      Security.hasPermission (securityContext s)
        ("fs:read:" +:+ filePath) = Ok false ->
      host_log (snd (Bridge.readFile filePath encoding s)) =
      host_log s ++ [FsReadFile filePath (Bridge.encoding_of encoding)]) /\
  (forall filePath content,
      Security.hasPermission (securityContext s)
        ("fs:write:" +:+ filePath) = Ok false ->
      host_log (snd (Bridge.writeFile filePath content s)) =
      host_log s ++ [FsWriteFile filePath content]) /\
  (forall url,
      Security.hasPermission (securityContext s)
        ("net:http:" +:+ url) = Ok false ->
      host_log (snd (Bridge.get url s)) =
      host_log s ++ [Fetch "GET" url None]).
Proof.
  repeat split; intros;
    unfold Bridge.kill, Bridge.readFile, Bridge.writeFile, Bridge.get,
           Bridge.perform;
    unfold bind at 1;
    match goal with
    | Hdenied : Security.hasPermission _ _ = Ok false |- _ =>
        rewrite (checkPermission_decided _ _ _ _ Hdenied)
    end;
    cbn; try match goal with |- context [respond ?c ?o] =>
               destruct (respond c o) end; reflexivity.
Qed.

End Lookup.

(** ** The scenarios of the specification on the security context *)

Section SecurityScenarios.
#[local] Existing Instance Scenario.host.

Lemma checkPermission_appends_one_entry_witness :
  Security.hasPermission (securityContext Scenario.sandboxed) "proc:kill:1"
    = Ok false /\
  sec_auditLog (securityContext
    (snd (Security.checkPermission "proc:kill:1" ∅ Scenario.sandboxed))) =
    sec_auditLog (securityContext Scenario.sandboxed) ++
    [ {| audit_timestamp := 1000;
         audit_permission := "proc:kill:1";
         audit_context := ∅;
         audit_granted := false;
         audit_source := VStr "unknown" |} ].
Proof.
  assert (Hdenied : Security.hasPermission
                      (securityContext Scenario.sandboxed) "proc:kill:1"
                    = Ok false) by reflexivity.
  split; [exact Hdenied|].
  exact (proj1 (proj2 (checkPermission_appends_one_entry "proc:kill:1" ∅
                         Scenario.sandboxed false Hdenied))).
Defined.

(** C6, as the specification has it, fails: the audit log has no bound.
    After 10 001 checks of a started shell it holds 10 001 entries. *)
Lemma auditLog_exceeds_ten_thousand :
  let s := snd (Security.checks (Z.to_nat 10001) "command:execute"
                  Scenario.started) in
  Z.of_nat (List.length (sec_auditLog (securityContext s))) = 10001%Z /\
  ~ (Z.of_nat (List.length (sec_auditLog (securityContext s))) <= 10000)%Z.
Proof.
  assert (Hgranted :
            JsMap.get "command:execute"
              (sec_permissions (securityContext Scenario.started))
            = Some true) by reflexivity.
  assert (Hempty :
            List.length (sec_auditLog (securityContext Scenario.started)) = 0)
    by reflexivity.
  generalize (checks_grow_log "command:execute" true (Z.to_nat 10001)
                Scenario.started Hgranted).
  rewrite Hempty. generalize (Z2Nat.id 10001 ltac:(discriminate)).
  generalize (Z.to_nat 10001). intros n Hn Hlen s. subst s.
  rewrite Hlen. split; lia.
Qed.

(** A stored key that is not a well-formed regular expression once its
    first [*] is replaced, such as [a**], is outside the three cases of the
    lookup: a query without an exact entry that reaches it throws. *)
Lemma malformed_key_throws :
  Security.hasPermission
    (Security.with_permissions (fun _ => [("a**", true)]) Security.empty)
    "b"
  = Throw (SyntaxError
             "Invalid regular expression: /a.**/: Nothing to repeat").
Proof. reflexivity. Qed.

(** C1 fails on the code: [proc.kill(1)] under the sandbox policy. The
    check is denied and logged once with [granted = false]; the call then
    returns normally and the signal has been sent. *)
Theorem kill_denied_by_sandbox_is_delivered :
  Security.hasPermission (securityContext Scenario.sandboxed) "proc:kill:1"
    = Ok false /\
  fst (Bridge.kill 1 "SIGTERM" Scenario.sandboxed) = Ok VUndefined /\
  host_log (snd (Bridge.kill 1 "SIGTERM" Scenario.sandboxed)) =
    [ProcessKill 1 "SIGTERM"] /\
  sec_auditLog (securityContext
    (snd (Bridge.kill 1 "SIGTERM" Scenario.sandboxed))) =
    [ {| audit_timestamp := 1000;
         audit_permission := "proc:kill:1";
         audit_context := ∅;
         audit_granted := false;
         audit_source := VStr "unknown" |} ].
Proof.
  repeat split; reflexivity.
Qed.

End SecurityScenarios.

(** ** External commands *)

(** C2, as the code has it. How [executeSystemCommand] settles, by the
    way the child ended: a failed spawn throws the spawn error; exit code
    0 returns the map with [success = true]; any other end of the child
    throws [Command failed with code ...]. In every case the only change
    of the shell is the spawn itself. *)
Theorem executeSystemCommand_outcome `{Host} (command : string)
    (args : list string) (flags context : gmap string value)
    (s : ShellState) :
  let capture :=
    match context !! "capture" with Some v => truthy v | None => false end in
  let op :=
    Spawn command args capture (currentDirectory s) (environment s) in
  Engine.executeSystemCommand (Some command) args flags context s =
  (match child (host_log s) op with
   | SpawnError e => Throw e
   | Closed (Some 0%Z) out err =>
       Ok (VObj [ ("success", VBool true);
                  ("code", VNum 0);
                  ("stdout",
                   VStr (Js.trim (if capture then out else EmptyString)));
                  ("stderr",
                   VStr (Js.trim (if capture then err else EmptyString))) ])
   | Closed code out err =>
       Throw (Error ("Command failed with code " +:+ Engine.render_code code
                     +:+ ": " +:+ (if capture then err else EmptyString)))
   end,
   with_host_log (fun log => log ++ [op]) s).
Proof.
  intros capture op. unfold Engine.executeSystemCommand.
  fold capture. cbn. fold op.
  destruct (child (host_log s) op) as [e|[[|p|p]|] out err]; reflexivity.
Qed.

(** C2, as the specification has it, fails on the program [false]: it is
    spawned, exits with code 1, and the engine throws instead of returning
    a map with [success = false]. *)
Lemma nonzero_exit_is_thrown :
  let s := Scenario.started in
  @child Scenario.host (host_log s)
    (Spawn "false" [] false (currentDirectory s) (environment s))
    = Closed (Some 1%Z) EmptyString EmptyString /\
  fst (@Engine.executeSystemCommand Scenario.host (Some "false") [] ∅ ∅ s)
    = Throw (Error "Command failed with code 1: ") /\
  ~ Spec.returns_failure_map
      (@Engine.executeSystemCommand Scenario.host (Some "false") [] ∅ ∅ s).
Proof.
  intros s. split; [reflexivity|]. split; [reflexivity|].
  intros [v [Hv _]]. vm_compute in Hv. discriminate Hv.
Qed.

(** ** Transactions *)

Section Transactions.
Context `{Host}.

Lemma on_state_stack {A} (m : M A) (sh : NexusShell) :
  transactionStack (snd (Shell.on_state m sh)) = transactionStack sh.
Proof.
  unfold Shell.on_state. destruct (m (state sh)). reflexivity.
Qed.

Lemma on_state_state {A} (m : M A) (sh : NexusShell) :
  state (snd (Shell.on_state m sh)) = snd (m (state sh)).
Proof.
  unfold Shell.on_state. destruct (m (state sh)). reflexivity.
Qed.

Lemma findTransaction_pushed (id : string) (stack : list Transaction)
    (tx : Transaction) :
  Shell.findTransaction id stack = None ->
  tx_id tx = id ->
  Shell.findTransaction id (stack ++ [tx]) = Some tx.
Proof.
  unfold Shell.findTransaction. intros Hfresh Hid.
  induction stack as [|t stack IH]; simpl in *.
  - rewrite Hid, String.eqb_refl. reflexivity.
  - destruct (String.eqb (tx_id t) id); [discriminate|]. exact (IH Hfresh).
Qed.

Lemma restoreSnapshot_triple (s0 s : ShellState) :
  Shell.triple (snd (Shell.restoreSnapshot (Shell.createSnapshot s0) s)) =
  Shell.triple s0.
Proof. reflexivity. Qed.

(** C7. When the commands of a transaction raise an error, the rollback
    leaves the current directory, the environment and the aliases as they
    were when the transaction began. The transaction's id is new among the
    transactions still on the stack, and the caller's [onRollback]
    callback, when there is one, does not itself change the three. *)
Theorem executeTransaction_failure_restores (commands : list string)
    (options : TransactionOptions) (rnd : string) (sh sh' : NexusShell)
    (error : exn) :
  Shell.findTransaction (Shell.transactionId (clock (state sh)) rnd)
                        (transactionStack sh) = None ->
  (forall callback, onRollback options = Some callback ->
     forall id snapshot cmds s,
       Shell.triple (snd (callback id snapshot cmds s)) = Shell.triple s) ->
  Shell.executeTransaction commands options rnd sh = (Throw error, sh') ->
  Shell.triple (state sh') = Shell.triple (state sh).
Proof.
  intros Hfresh Hcallback. unfold Shell.executeTransaction.
  set (id := Shell.transactionId (clock (state sh)) rnd) in *.
  set (tx := {| tx_id := id;
                tx_snapshot := Shell.createSnapshot (state sh);
                tx_commands := commands;
                tx_options := options |}).
  set (pushed := {| state := state sh;
                    transactionStack := transactionStack sh ++ [tx] |}).
  pose proof (on_state_stack (Shell.runCommands commands) pushed) as Hstack.
  destruct (Shell.on_state (Shell.runCommands commands) pushed)
    as [[results|failure] sh1]; [discriminate|].
  simpl in Hstack. unfold Shell.rollbackTransaction.
  rewrite Hstack, (findTransaction_pushed id _ tx Hfresh eq_refl).
  pose proof (on_state_state
    (Shell.restoreSnapshot (tx_snapshot tx) >>
     match onRollback (tx_options tx) with
     | Some callback =>
         callback (tx_id tx) (tx_snapshot tx) (tx_commands tx)
     | None => ret tt
     end)%sh sh1) as Hstate.
  destruct (Shell.on_state _ sh1) as [[[]|failure'] sh2];
    intros Hresult; injection Hresult as _ <-;
    simpl in Hstate; rewrite Hstate; clear Hstate;
    unfold bind; simpl;
    (destruct (onRollback options) as [callback|] eqn:Hcb;
     [rewrite (Hcallback callback eq_refl)|]; reflexivity).
Qed.

(** A transaction fails exactly when its list of commands does: the
    theorem above covers every failing list. *)
Lemma executeTransaction_fails_with_commands (commands : list string)
    (options : TransactionOptions) (rnd : string) (sh : NexusShell) :
  is_ok (fst (Shell.executeTransaction commands options rnd sh)) =
  is_ok (fst (Shell.runCommands commands (state sh))).
Proof.
  unfold Shell.executeTransaction, Shell.on_state. simpl.
  destruct (Shell.runCommands commands (state sh)) as [[results|failure] s1];
    [reflexivity|].
  simpl. destruct (Shell.rollbackTransaction _ _) as [[[]|failure'] sh2];
    reflexivity.
Qed.

End Transactions.

(** ** The recorder *)

Section Recording.
Context `{Host}.

(** [recordCommand] during a recording: one record is added to the
    recording, with the input and without result, error or time. *)
Lemma recordCommand_appends (input : string) (context : gmap string value)
    (s : ShellState) (a : nat) (cur : Recording) :
  rec_recording (executionRecorder s) = true ->
  rec_currentRecording (executionRecorder s) = Some a ->
  rec_objects (executionRecorder s) !! a = Some cur ->
  let s' := snd (Recorder.recordCommand input context s) in
  fst (Recorder.recordCommand input context s) = Ok tt /\
  rec_objects (executionRecorder s') !! a =
    Some (Recorder.with_rcd_commands (fun l =>
            l ++ [ {| cr_id := List.length (rcd_commands cur) + 1;
                      cr_timestamp := clock s;
                      cr_input := input;
                      cr_context := context;
                      cr_systemState := systemState (clock s);
                      cr_result := None;
                      cr_error := None;
                      cr_executionTime := None |} ]) cur).
Proof.
  intros Hrecording Hcurrent Hobject.
  unfold Recorder.recordCommand, Recorder.current, Recorder.update_current.
  unfold_M. cbn. rewrite Hrecording. cbn. rewrite Hcurrent, Hobject. cbn.
  rewrite Hcurrent. cbn. split; [reflexivity|].
  rewrite list_lookup_alter_eq, Hobject. reflexivity.
Qed.

(** C9. While a recording is in progress, [startRecording] throws and the
    recorder, like the rest of the shell, is left as it was. *)
Theorem startRecording_while_recording (name : option string)
    (s : ShellState) :
  rec_recording (executionRecorder s) = true ->
  Recorder.startRecording name s =
  (Throw (Error "Recording is already in progress"), s).
Proof.
  intros Hrecording. unfold Recorder.startRecording. unfold_M.
  rewrite Hrecording. reflexivity.
Qed.

End Recording.

(** ** The scenarios of the specification on the shell *)

Section ShellScenarios.
#[local] Existing Instance Scenario.host.

(** The transaction [cd /tmp], [export A=1], [nonexistent-command] in a
    shell started in [/home/u]: the first two commands change the state,
    the third cannot be spawned, and the rollback undoes the changes. *)
Lemma executeTransaction_failure_restores_witness :
  let sh := {| state := Scenario.started; transactionStack := [] |} in
  let commands := ["cd /tmp"; "export A=1"; "nonexistent-command"] in
  let options := {| onRollback := None |} in
  let r := Shell.executeTransaction commands options "k3j9x0a1b" sh in
  Shell.triple
    (snd ((Shell.executeCommand "cd /tmp" ∅ >>
           Shell.executeCommand "export A=1" ∅)%sh Scenario.started))
    = ("/tmp", {[ "A" := "1" ]}, ∅) /\
  fst r = Throw (Error "spawn nonexistent-command ENOENT") /\
  Shell.triple (state (snd r)) = ("/home/u", ∅, ∅).
Proof.
  intros sh commands options r.
  split; [reflexivity|]. split; [reflexivity|].
  rewrite (executeTransaction_failure_restores commands options "k3j9x0a1b"
             sh (snd r) (Error "spawn nonexistent-command ENOENT")).
  - reflexivity.
  - reflexivity.
  - intros callback Hcallback. discriminate Hcallback.
  - transitivity (fst r, snd r); [apply surjective_pairing|].
    apply (f_equal (fun o => (o, snd r))). vm_compute. reflexivity.
Defined.

Lemma startRecording_while_recording_witness :
  let s := snd (Recorder.startRecording (Some "r1") Scenario.started) in
  rec_recording (executionRecorder s) = true /\
  Recorder.startRecording (Some "r2") s =
  (Throw (Error "Recording is already in progress"), s).
Proof.
  intros s.
  assert (Hrecording : rec_recording (executionRecorder s) = true)
    by reflexivity.
  split; [exact Hrecording|].
  exact (startRecording_while_recording (Some "r2") s Hrecording).
Defined.

(** C8 fails on the code: record [r1], run [pwd] and [date] through
    [executeCommand], stop. The recording returned, which is also the
    document saved, has the two commands with their input, and neither has
    a result or an execution time: [executeCommand] calls [recordCommand]
    and never [recordCommandResult]. *)
Theorem recorded_commands_have_no_result :
  let r := (Recorder.startRecording (Some "r1") >>
            Shell.executeCommand "pwd" ∅ >>
            Shell.executeCommand "date" ∅ >>
            Recorder.stopRecording)%sh Scenario.started in
  exists recording,
    fst r = Ok recording /\
    map cr_input (rcd_commands recording) = ["pwd"; "date"] /\
    map cr_result (rcd_commands recording) = [None; None] /\
    map cr_executionTime (rcd_commands recording) = [None; None] /\
    last (host_log (snd r)) =
      Some (FsWriteRecording "/home/u/.nexus/recordings/r1.json" recording).
Proof.
  intros r.
  destruct (fst r) as [recording|] eqn:Hr; [|vm_compute in Hr; discriminate].
  exists recording. split; [reflexivity|].
  vm_compute in Hr. injection Hr as <-.
  repeat split; reflexivity.
Qed.

End ShellScenarios.
(** ** More on [parseCommand] *)

Lemma prefix_head (a : ascii) (p s : string) :
  String.prefix (String a p) s = true ->
  String.prefix (String a EmptyString) s = true.
Proof.
  destruct s as [|c r]; simpl; [discriminate|].
  destruct (ascii_dec a c); [|discriminate]. intros _.
  destruct r; reflexivity.
Qed.

Lemma parsePart_step (acc : list string * gmap string value) (part : string) :
  fst (Engine.parsePart acc part) =
  fst acc ++ (if Js.startsWith "-" part then [] else [part]).
Proof.
  destruct acc as [args flags]. unfold Engine.parsePart.
  destruct (Js.startsWith "--" part) eqn:Hlong.
  - assert (Hshort : Js.startsWith "-" part = true)
      by exact (prefix_head _ _ _ Hlong).
    rewrite Hshort. simpl. rewrite app_nil_r. reflexivity.
  - destruct (Js.startsWith "-" part); simpl; [rewrite app_nil_r|]; reflexivity.
Qed.

Lemma fold_parsePart_positional (parts : list string) :
  forall acc : list string * gmap string value,
    fst (fold_left Engine.parsePart parts acc) =
    fst acc ++ List.filter (fun p => negb (Js.startsWith "-" p)) parts.
Proof.
  induction parts as [|p ps IH]; intros acc; simpl.
  - rewrite app_nil_r. reflexivity.
  - rewrite IH, parsePart_step.
    destruct (Js.startsWith "-" p); simpl; rewrite <- app_assoc; reflexivity.
Qed.

(** X1. The positional arguments of a line are, in order, its non-blank
    space-separated pieces after the first that do not start with [-];
    the command is the first piece. No argument starts with [-]. *)
Theorem parseCommand_positionals (input : string) :
  pc_command (Engine.parseCommand input) = hd_error (Engine.parts_of input) /\
  pc_args (Engine.parseCommand input) =
    List.filter (fun p => negb (Js.startsWith "-" p))
                (tl (Engine.parts_of input)) /\
  Forall (fun a => Js.startsWith "-" a = false)
         (pc_args (Engine.parseCommand input)).
Proof.
  assert (Hargs : pc_args (Engine.parseCommand input) =
                  List.filter (fun p => negb (Js.startsWith "-" p))
                              (tl (Engine.parts_of input))).
  { rewrite parseCommand_args, fold_parsePart_positional. reflexivity. }
  split; [|split; [exact Hargs|]].
  - unfold Engine.parseCommand.
    destruct (fold_left Engine.parsePart _ _). reflexivity.
  - rewrite Hargs. apply List.Forall_forall. intros a Hin.
    apply List.filter_In in Hin as [_ Hneg].
    apply negb_true_iff in Hneg. exact Hneg.
Qed.

Lemma parsePart_flags_grow (acc : list string * gmap string value)
    (part k : string) :
  is_Some (snd acc !! k) -> is_Some (snd (Engine.parsePart acc part) !! k).
Proof.
  destruct acc as [args flags]. unfold Engine.parsePart. intros Hk.
  remember (Js.split "=" (Js.slice 2 part)) as pieces eqn:Hpieces.
  remember (Js.slice 1 part) as short eqn:Hshort.
  clear Hpieces Hshort. simpl in Hk.
  destruct (Js.startsWith "--" part); [|destruct (Js.startsWith "-" part)];
    simpl; try exact Hk;
    match goal with |- is_Some (<[?i := _]> _ !! _) =>
      destruct (decide (i = k)) as [->|Hne];
        [rewrite lookup_insert_eq; eauto
        |rewrite lookup_insert_ne by exact Hne; exact Hk]
    end.
Qed.

Lemma fold_parsePart_flags_grow (parts : list string) (k : string) :
  forall acc : list string * gmap string value,
    is_Some (snd acc !! k) ->
    is_Some (snd (fold_left Engine.parsePart parts acc) !! k).
Proof.
  induction parts as [|p ps IH]; intros acc Hk; simpl; [exact Hk|].
  apply IH, parsePart_flags_grow, Hk.
Qed.

Lemma parsePart_flag_key (acc : list string * gmap string value)
    (part : string) :
  Js.startsWith "-" part = true ->
  is_Some (snd (Engine.parsePart acc part) !!
             (if Js.startsWith "--" part
              then hd EmptyString (Js.split "=" (Js.slice 2 part))
              else Js.slice 1 part)).
Proof.
  destruct acc as [args flags]. unfold Engine.parsePart. intros Hdash.
  remember (Js.split "=" (Js.slice 2 part)) as pieces eqn:Hpieces.
  remember (Js.slice 1 part) as short eqn:Hshort.
  clear Hpieces Hshort.
  destruct (Js.startsWith "--" part).
  - simpl. destruct pieces as [|k rest]; simpl;
      rewrite lookup_insert_eq; eauto.
  - rewrite Hdash. simpl. rewrite lookup_insert_eq. eauto.
Qed.

Lemma fold_parsePart_flag_keys (parts : list string) (part : string) :
  In part parts ->
  Js.startsWith "-" part = true ->
  forall acc : list string * gmap string value,
    is_Some (snd (fold_left Engine.parsePart parts acc) !!
               (if Js.startsWith "--" part
                then hd EmptyString (Js.split "=" (Js.slice 2 part))
                else Js.slice 1 part)).
Proof.
  intros Hin Hdash. induction parts as [|p ps IH]; [destruct Hin|].
  intros acc. simpl. destruct Hin as [->|Hin].
  - apply fold_parsePart_flags_grow, parsePart_flag_key, Hdash.
  - apply IH, Hin.
Qed.

Lemma parsePart_flag_values (acc : list string * gmap string value)
    (part : string) :
  map_Forall (fun _ v => v = VBool true \/
                         exists s, v = VStr s /\ Js.is_empty s = false)
             (snd acc) ->
  map_Forall (fun _ v => v = VBool true \/
                         exists s, v = VStr s /\ Js.is_empty s = false)
             (snd (Engine.parsePart acc part)).
Proof.
  destruct acc as [args flags]. unfold Engine.parsePart. intros Hall.
  remember (Js.split "=" (Js.slice 2 part)) as pieces eqn:Hpieces.
  clear Hpieces. simpl in *.
  destruct (Js.startsWith "--" part); [|destruct (Js.startsWith "-" part)];
    simpl; try exact Hall; apply map_Forall_insert_2; try exact Hall.
  - destruct pieces as [|k [|v rest]];
      [left; reflexivity|left; reflexivity|].
    destruct (Js.is_empty v) eqn:Hv; [left; reflexivity|right; eauto].
  - left; reflexivity.
Qed.

Lemma parseCommand_flags_fold (input : string) :
  pc_flags (Engine.parseCommand input) =
  snd (fold_left Engine.parsePart (tl (Engine.parts_of input)) ([], ∅)).
Proof.
  unfold Engine.parseCommand.
  destruct (fold_left Engine.parsePart _ _) as [args flags]. reflexivity.
Qed.

(** X2. Every piece of the line that starts with [-] leaves a flag: the
    text before the first [=] for a [--] piece, and the whole text after
    the dash for a single-dash piece, which is one flag and not one flag
    per letter. A flag's value is [true] or a non-empty string. The name
    [__proto__] is left out: assigning [true] or a string to it stores no
    property in a JavaScript object. *)
Theorem parseCommand_flags (input : string) :
  (forall part,
      In part (tl (Engine.parts_of input)) ->
      Js.startsWith "-" part = true ->
      let key := if Js.startsWith "--" part
                 then hd EmptyString (Js.split "=" (Js.slice 2 part))
                 else Js.slice 1 part in
      key <> "__proto__" ->
      is_Some (pc_flags (Engine.parseCommand input) !! key)) /\
  (forall k v,
      k <> "__proto__" ->
      pc_flags (Engine.parseCommand input) !! k = Some v ->
      v = VBool true \/ exists s, v = VStr s /\ Js.is_empty s = false).
Proof.
  rewrite parseCommand_flags_fold. split.
  - intros part Hin Hdash key _. apply fold_parsePart_flag_keys; assumption.
  - assert (Hall : forall parts acc,
               map_Forall (fun _ v => v = VBool true \/
                            exists s, v = VStr s /\ Js.is_empty s = false)
                          (snd acc) ->
               map_Forall (fun _ v => v = VBool true \/
                            exists s, v = VStr s /\ Js.is_empty s = false)
                          (snd (fold_left Engine.parsePart parts acc))).
    { induction parts as [|p ps IH]; intros acc Hacc; simpl; [exact Hacc|].
      apply IH, parsePart_flag_values, Hacc. }
    intros k v _ Hk.
    exact (Hall _ ([], ∅) (map_Forall_empty _) k v Hk).
Qed.

Lemma parseCommand_flags_witness :
  pc_flags (Engine.parseCommand "ls -la --color=auto --all=") !! "la"
    = Some (VBool true) /\
  pc_flags (Engine.parseCommand "ls -la --color=auto --all=") !! "l" = None /\
  pc_flags (Engine.parseCommand "ls -la --color=auto --all=") !! "color"
    = Some (VStr "auto") /\
  is_Some (pc_flags (Engine.parseCommand "ls -la --color=auto --all=")
             !! "la") /\
  (VStr "auto" = VBool true \/
   exists s, VStr "auto" = VStr s /\ Js.is_empty s = false).
Proof.
  assert (Hla : pc_flags (Engine.parseCommand "ls -la --color=auto --all=")
                  !! "la" = Some (VBool true)) by (vm_compute; reflexivity).
  assert (Hcolor : pc_flags (Engine.parseCommand "ls -la --color=auto --all=")
                     !! "color" = Some (VStr "auto"))
    by (vm_compute; reflexivity).
  split; [exact Hla|]. split; [vm_compute; reflexivity|].
  split; [exact Hcolor|]. split.
  - refine (proj1 (parseCommand_flags "ls -la --color=auto --all=")
              "-la" _ eq_refl _).
    + vm_compute. left. reflexivity.
    + discriminate.
  - refine (proj2 (parseCommand_flags "ls -la --color=auto --all=")
              "color" (VStr "auto") _ Hcolor).
    discriminate.
Defined.

(** ** Object pipeline mode *)

Lemma prefix_count (c : ascii) (s : string) :
  forall p, String.prefix p s = true -> Js.count c p <= Js.count c s.
Proof.
  induction s as [|d r IH]; intros [|a p]; simpl; try lia; try discriminate.
  destruct (ascii_dec a d) as [->|]; [|discriminate].
  intros Hp. specialize (IH p Hp). lia.
Qed.

Lemma includes_count (c : ascii) (p s : string) :
  Js.includes p s = true -> Js.count c p <= Js.count c s.
Proof.
  induction s as [|d r IH]; cbn [Js.includes]; intros Hin.
  - rewrite orb_false_r in Hin. exact (prefix_count c _ _ Hin).
  - apply orb_true_iff in Hin as [Hp|Hr].
    + exact (prefix_count c _ _ Hp).
    + specialize (IH Hr). cbn [Js.count]. lia.
Qed.

Lemma skip_word_count (c : ascii) (s : string) :
  Js.count c (Engine.skip_word s) <= Js.count c s.
Proof.
  induction s as [|d r IH]; simpl; [lia|].
  destruct (Engine.is_word d); simpl; lia.
Qed.

Lemma call_follows_paren (s : string) :
  Engine.call_follows s = true -> 0 < Js.count "(" s.
Proof.
  destruct s as [|c r]; simpl; [discriminate|].
  intros Hcall. apply andb_true_iff in Hcall as [_ Hskip].
  pose proof (skip_word_count "(" r) as Hle.
  destruct (Engine.skip_word r) as [|d r']; [discriminate|].
  destruct (Ascii.eqb d "(") eqn:Hd.
  - simpl in Hle. rewrite Hd in Hle. lia.
  - exfalso. revert Hskip.
    destruct d as [[] [] [] [] [] [] [] []]; try discriminate;
      simpl in Hd; discriminate.
Qed.

Lemma method_call_paren (s : string) :
  Engine.method_call s = true -> 0 < Js.count "(" s.
Proof.
  induction s as [|c r IH]; simpl; [discriminate|].
  intros Hcall. apply orb_true_iff in Hcall as [Hhere|Hlater].
  - apply andb_true_iff in Hhere as [_ Hdot].
    destruct r as [|d r']; [discriminate|].
    assert (Hfollow : Engine.call_follows r' = true).
    { revert Hdot. destruct d as [[] [] [] [] [] [] [] []];
        try discriminate; auto. }
    apply call_follows_paren in Hfollow. simpl. lia.
  - specialize (IH Hlater). lia.
Qed.

(** X3. A line with no opening parenthesis is never taken for an object
    pipeline: it is never handed to the script evaluator. *)
Theorem isObjectPipelineMode_needs_paren (input : string) :
  Js.count "(" input = 0 -> Engine.isObjectPipelineMode input = false.
Proof.
  intros Hnone. unfold Engine.isObjectPipelineMode.
  destruct (Engine.method_call input) eqn:Hcall.
  { apply method_call_paren in Hcall. lia. }
  destruct (Js.includes ".filter(" input) eqn:Hfilter.
  { apply (includes_count "(") in Hfilter. simpl in Hfilter. lia. }
  destruct (Js.includes ".map(" input) eqn:Hmap.
  { apply (includes_count "(") in Hmap. simpl in Hmap. lia. }
  destruct (Js.includes ".reduce(" input) eqn:Hreduce.
  { apply (includes_count "(") in Hreduce. simpl in Hreduce. lia. }
  reflexivity.
Qed.

Lemma isObjectPipelineMode_needs_paren_witness :
  Js.count "(" "cat notes.txt" = 0 /\
  Engine.isObjectPipelineMode "cat notes.txt" = false.
Proof.
  split; [reflexivity|].
  apply isObjectPipelineMode_needs_paren. reflexivity.
Defined.

(** ** The command registry *)

(** X4. [registerCommand] refuses a name that is already registered and
    then changes nothing; otherwise the command is found under its name
    afterwards, with the permissions given, and every other name is
    registered as before. *)
Theorem registerCommand_registry (name description : string)
    (permissions : list string) (s : ShellState) :
  match eng_commands (commandEngine s) !! name with
  | Some _ =>
      Engine.registerCommand name description permissions s =
      (Throw (Error ("Command '" +:+ name +:+ "' is already registered")), s)
  | None =>
      exists command s',
        Engine.registerCommand name description permissions s
          = (Ok command, s') /\
        eng_commands (commandEngine s') !! name = Some command /\
        cmd_name command = name /\
        cmd_permissions command = permissions /\
        (forall other, other <> name ->
           eng_commands (commandEngine s') !! other =
           eng_commands (commandEngine s) !! other) /\
        with_commandEngine (fun _ => commandEngine s) s' = s
  end.
Proof.
  unfold Engine.registerCommand. unfold_M.
  destruct (eng_commands (commandEngine s) !! name) eqn:Hname;
    [reflexivity|].
  eexists _, _. split; [reflexivity|]. cbn.
  split; [apply lookup_insert_eq|]. split; [reflexivity|].
  split; [reflexivity|]. split.
  - intros other Hne. apply lookup_insert_ne. congruence.
  - destruct s as [? ? ? ? ? ? ? [] ? ? ? ?]. reflexivity.
Qed.

(** ** Pipelines and single commands *)

Section Dispatch.
Context `{Host}.

Lemma runStages_app (before after : list string) (length : nat)
    (context : gmap string value) :
  forall (i : nat) (result : value) (s : ShellState),
    Engine.runStages (before ++ after) i length context result s =
    (let! result' := Engine.runStages before i length context result in
     Engine.runStages after (i + List.length before) length context result') s.
Proof.
  induction before as [|c before IH]; intros i result s.
  - simpl. unfold bind, ret. rewrite Nat.add_0_r. reflexivity.
  - cbn [app Engine.runStages List.length]. unfold bind.
    destruct (Engine.executeSingleCommand c _ s) as [[r1|e] s1];
      [|reflexivity].
    rewrite IH. unfold bind. replace (S i + List.length before)
      with (i + S (List.length before)) by lia. reflexivity.
Qed.

(** X5. A pipeline stops at its first failing stage: when the stages
    before it succeed and the stage throws, the pipeline throws the same
    error in the same state, and the stages after it are not run. *)
Theorem pipeline_stops_at_first_failure (before after : list string)
    (command : string) (i length : nat) (context : gmap string value)
    (result result1 : value) (s s1 s2 : ShellState) (e : exn) :
  Engine.runStages before i length context result s = (Ok result1, s1) ->
  Engine.executeSingleCommand command
    (<["pipelineLength" := VNum (Z.of_nat length)]>
       (<["pipelineIndex" := VNum (Z.of_nat (i + List.length before))]>
          (<["pipelineInput" := result1]> context))) s1 = (Throw e, s2) ->
  Engine.runStages (before ++ command :: after) i length context result s =
  (Throw e, s2).
Proof.
  intros Hbefore Hstage. rewrite runStages_app. unfold bind at 1.
  rewrite Hbefore. cbn [Engine.runStages]. unfold bind at 1.
  rewrite Hstage. reflexivity.
Qed.

(** X6. A line that is one command, not registered under its name or its
    alias, is run as a child process: the line is added to the history and
    one child is spawned, in the shell's directory and environment, with
    the positional arguments of the line. The pieces that start with [-]
    were taken as flags and are not passed to the child. Nothing else in
    the shell changes. *)
Theorem execute_spawns_positionals (input : string)
    (context : gmap string value) (s : ShellState) (c name : string) :
  let t := Js.trim input in
  let parsed := Engine.parseCommand t in
  let capture :=
    match context !! "capture" with Some v => truthy v | None => false end in
  Js.is_empty t = false ->
  Js.count "|" t = 0 ->
  Engine.isObjectPipelineMode t = false ->
  pc_command parsed = Some c ->
  Engine.resolveAlias (commandEngine s) (Some c) = Some name ->
  eng_commands (commandEngine s) !! name = None ->
  snd (Engine.execute input context s) =
  with_host_log
    (fun log => log ++ [Spawn name (pc_args parsed) capture
                              (currentDirectory s) (environment s)])
    (snd (Engine.pushHistory t context s)) /\
  Forall (fun a => Js.startsWith "-" a = false) (pc_args parsed).
Proof.
  intros t parsed capture Hfull Hbar Hobject Hcommand Halias Hnone.
  split; [|apply parseCommand_positionals].
  unfold Engine.execute. fold t. rewrite Hfull.
  rewrite (includes_char "|" t), Hbar, Hobject. cbn [Nat.eqb negb].
  unfold Engine.pushHistory, Engine.executeSingleCommand. fold parsed.
  unfold_M. cbn. rewrite Hcommand.
  change (Engine.resolveAlias _ (Some c))
    with (Engine.resolveAlias (commandEngine s) (Some c)).
  rewrite Halias. cbn. rewrite Hnone.
  unfold Engine.executeSystemCommand. unfold_M. cbn. fold capture.
  destruct (child _ _) as [e|[[|p|p]|] out err]; reflexivity.
Qed.

Lemma checkPermissions_granted (context : gmap string value)
    (permissions : list string) :
  forall s : ShellState,
    Forall (fun p => Security.hasPermission (securityContext s) p = Ok true)
           permissions ->
    Engine.checkPermissions permissions context s =
    (Ok tt,
     Audit.logged (map (Audit.entry (clock s) context true) permissions) s).
Proof.
  induction permissions as [|p rest IH]; intros s Hall.
  - destruct s as [? ? ? ? ? ? [] ? ? ? ? ?].
    unfold Audit.logged, with_securityContext, Security.with_auditLog.
    cbn. rewrite app_nil_r. reflexivity.
  - inversion Hall as [|? ? Hp Hrest]; subst.
    cbn [Engine.checkPermissions]. unfold bind at 1.
    rewrite (checkPermission_decided p context s true Hp).
    rewrite IH by exact Hrest. f_equal.
    unfold Audit.logged, with_securityContext, Security.with_auditLog.
    cbn. rewrite <- app_assoc. reflexivity.
Qed.

(** X7. A registered command whose permissions are checked in order and
    one of them is denied is not run: the call throws
    [Permission denied: ...] naming the first denied permission, and the
    only change of the shell is one audit entry for each permission
    checked, the denied one last. *)
Theorem denied_command_is_not_run (input : string)
    (context : gmap string value) (s : ShellState) (c name : string)
    (commandDef : Command) (granted rest : list string) (denied : string) :
  pc_command (Engine.parseCommand input) = Some c ->
  Engine.resolveAlias (commandEngine s) (Some c) = Some name ->
  eng_commands (commandEngine s) !! name = Some commandDef ->
  cmd_permissions commandDef = granted ++ denied :: rest ->
  Forall (fun p => Security.hasPermission (securityContext s) p = Ok true)
         granted ->
  Security.hasPermission (securityContext s) denied = Ok false ->
  Engine.executeSingleCommand input context s =
  (Throw (Error ("Permission denied: " +:+ denied)),
   Audit.logged
     (map (Audit.entry (clock s) context true) granted ++
      [Audit.entry (clock s) context false denied]) s).
Proof.
  intros Hcommand Halias Hdef Hperms Hgranted Hdenied.
  unfold Engine.executeSingleCommand. unfold bind at 1. unfold gets.
  rewrite Hcommand, Halias. cbn [Engine.lookupCommand]. rewrite Hdef, Hperms.
  unfold bind at 1.
  assert (Hsplit : forall s0,
    Forall (fun p => Security.hasPermission (securityContext s0) p = Ok true)
           granted ->
    Security.hasPermission (securityContext s0) denied = Ok false ->
    Engine.checkPermissions (granted ++ denied :: rest) context s0 =
    (Throw (Error ("Permission denied: " +:+ denied)),
     Audit.logged
       (map (Audit.entry (clock s0) context true) granted ++
        [Audit.entry (clock s0) context false denied]) s0)).
  { clear. induction granted as [|p ps IH]; intros s0 Hall Hden.
    - cbn [app Engine.checkPermissions map]. unfold bind at 1.
      rewrite (checkPermission_decided denied context s0 false Hden).
      reflexivity.
    - inversion Hall as [|? ? Hp Hps]; subst.
      cbn [app Engine.checkPermissions map]. unfold bind at 1.
      rewrite (checkPermission_decided p context s0 true Hp).
      rewrite IH by assumption. f_equal.
      unfold Audit.logged, with_securityContext, Security.with_auditLog.
      cbn. rewrite <- app_assoc. reflexivity. }
  rewrite (Hsplit s Hgranted Hdenied). reflexivity.
Qed.

End Dispatch.

Lemma pair_from_fst {A B} (p : A * B) (a : A) : fst p = a -> p = (a, snd p).
Proof. intros <-. apply surjective_pairing. Qed.

Section DispatchScenarios.
#[local] Existing Instance Scenario.host.

(** The pipeline [true | false | echo hi]: [false] fails and [echo] is
    never spawned. *)
Lemma pipeline_stops_at_first_failure_witness :
  let r := Engine.runStages ["true"; "false"; "echo hi"] 0 3 ∅ VNull
             Scenario.started in
  fst r = Throw (Error "Command failed with code 1: ") /\
  host_log (snd r) =
    [ Spawn "true" [] false "/home/u" ∅; Spawn "false" [] false "/home/u" ∅ ].
Proof.
  set (first := Engine.runStages ["true"] 0 3 ∅ VNull Scenario.started).
  set (context := <["pipelineLength" := VNum 3]>
                    (<["pipelineIndex" := VNum 1]>
                       (<["pipelineInput" :=
                            VObj [ ("success", VBool true); ("code", VNum 0);
                                   ("stdout", VStr EmptyString);
                                   ("stderr", VStr EmptyString) ]]>
                          (∅ : gmap string value)))).
  set (second := Engine.executeSingleCommand "false" context (snd first)).
  assert (Hfirst : first = (Ok (VObj [ ("success", VBool true);
                                       ("code", VNum 0);
                                       ("stdout", VStr EmptyString);
                                       ("stderr", VStr EmptyString) ]),
                            snd first))
    by (apply pair_from_fst; vm_compute; reflexivity).
  assert (Hsecond : second =
                    (Throw (Error "Command failed with code 1: "), snd second))
    by (apply pair_from_fst; vm_compute; reflexivity).
  intros r.
  assert (Hr : r = (Throw (Error "Command failed with code 1: "), snd second))
    by exact (pipeline_stops_at_first_failure ["true"] ["echo hi"] "false"
                0 3 ∅ VNull _ Scenario.started (snd first) (snd second)
                _ Hfirst Hsecond).
  rewrite Hr. split; [reflexivity|]. vm_compute. reflexivity.
Defined.

(** The line [ls -la /tmp]: the child gets [/tmp] and not [-la]. *)
Lemma execute_spawns_positionals_witness :
  host_log (snd (Engine.execute "ls -la /tmp" ∅ Scenario.started)) =
    [ Spawn "ls" ["/tmp"] false "/home/u" ∅ ] /\
  Forall (fun a => Js.startsWith "-" a = false)
         (pc_args (Engine.parseCommand (Js.trim "ls -la /tmp"))).
Proof.
  destruct (execute_spawns_positionals "ls -la /tmp" ∅ Scenario.started
              "ls" "ls" eq_refl eq_refl eq_refl eq_refl eq_refl eq_refl)
    as [Hstate Hargs].
  split; [|exact Hargs].
  rewrite Hstate. vm_compute. reflexivity.
Defined.

(** A command [deploy] that needs [command:execute], which is granted, and
    [proc:kill:1], which is not. *)
Lemma denied_command_is_not_run_witness :
  let s := snd (Engine.registerCommand "deploy" "Deploy the build"
                  ["command:execute"; "proc:kill:1"] Scenario.started) in
  Engine.executeSingleCommand "deploy now" ∅ s =
  (Throw (Error "Permission denied: proc:kill:1"),
   Audit.logged [ Audit.entry 1000 ∅ true "command:execute";
                  Audit.entry 1000 ∅ false "proc:kill:1" ] s).
Proof.
  intros s.
  refine (denied_command_is_not_run "deploy now" ∅ s "deploy" "deploy"
            {| cmd_name := "deploy";
               cmd_description := "Deploy the build";
               cmd_permissions := ["command:execute"; "proc:kill:1"] |}
            ["command:execute"] [] "proc:kill:1" eq_refl eq_refl _ eq_refl
            _ _).
  - vm_compute. reflexivity.
  - constructor; [vm_compute; reflexivity|constructor].
  - vm_compute. reflexivity.
Defined.

End DispatchScenarios.

(** ** Grants, policies and sandboxes *)

Lemma JsMap_set_set {V : Type} (k : string) (v w : V)
    (m : list (string * V)) :
  JsMap.set k w (JsMap.set k v m) = JsMap.set k w m.
Proof.
  induction m as [|[k' v'] rest IH]; simpl.
  - rewrite String.eqb_refl. reflexivity.
  - destruct (String.eqb k k') eqn:Hk; simpl; rewrite Hk; [reflexivity|].
    rewrite IH. reflexivity.
Qed.

Section Grants.
Context `{Host}.

(** X8. [grantPermission] makes the permission granted, whatever the
    map held before, also a denial or a matching wildcard denial; the
    exact entries of all other keys, the order of the keys already there
    and the audit log are as before; granting twice is granting once. *)
Theorem grantPermission_grants (permission : string) (s : ShellState) :
  let s' := snd (Security.grantPermission permission s) in
  Security.hasPermission (securityContext s') permission = Ok true /\
  (forall other, other <> permission ->
     JsMap.get other (sec_permissions (securityContext s')) =
     JsMap.get other (sec_permissions (securityContext s))) /\
  (JsMap.has permission (sec_permissions (securityContext s)) = true ->
   map fst (sec_permissions (securityContext s')) =
   map fst (sec_permissions (securityContext s))) /\
  sec_auditLog (securityContext s') = sec_auditLog (securityContext s) /\
  snd (Security.grantPermission permission s') = s'.
Proof.
  intros s'. subst s'. unfold Security.grantPermission, modify. cbn.
  repeat split.
  - unfold Security.hasPermission. cbn. rewrite JsMap_get_set_eq. reflexivity.
  - intros other Hne. apply JsMap_get_set_ne. congruence.
  - apply JsMap_set_keys.
  - unfold with_securityContext, Security.with_permissions. cbn.
    rewrite JsMap_set_set. reflexivity.
Qed.

Lemma applyRules_ok (rules : list Rule) :
  forall s, fst (Security.applyRules rules s) = Ok tt.
Proof.
  induction rules as [|rule rest IH]; intros s; [reflexivity|].
  cbn [Security.applyRules]. unfold bind.
  destruct (rule_type_of rule); cbn; apply IH.
Qed.

Lemma applyRules_other (rules : list Rule) (k : string) :
  ~ In k (map rule_resource rules) ->
  forall s,
    JsMap.get k (sec_permissions
                   (securityContext (snd (Security.applyRules rules s)))) =
    JsMap.get k (sec_permissions (securityContext s)).
Proof.
  induction rules as [|rule rest IH]; intros Hnotin s; [reflexivity|].
  cbn [Security.applyRules]. unfold bind.
  assert (Hne : rule_resource rule <> k)
    by (intros Heq; apply Hnotin; left; exact Heq).
  assert (Hrest : ~ In k (map rule_resource rest))
    by (intros Hin; apply Hnotin; right; exact Hin).
  destruct (rule_type_of rule); cbn; rewrite (IH Hrest); cbn;
    apply JsMap_get_set_ne; exact Hne.
Qed.

Lemma applyRules_audit (rules : list Rule) :
  forall s,
    sec_auditLog (securityContext (snd (Security.applyRules rules s))) =
    sec_auditLog (securityContext s).
Proof.
  induction rules as [|rule rest IH]; intros s; [reflexivity|].
  cbn [Security.applyRules]. unfold bind.
  destruct (rule_type_of rule); cbn; rewrite IH; reflexivity.
Qed.

Lemma applyRules_decides (rules : list Rule) :
  NoDup (map rule_resource rules) ->
  forall s rule,
    In rule rules ->
    Security.hasPermission
      (securityContext (snd (Security.applyRules rules s)))
      (rule_resource rule) =
    Ok match rule_type_of rule with allow => true | deny => false end.
Proof.
  induction rules as [|r rest IH]; intros Hnodup s rule Hin; [destruct Hin|].
  inversion Hnodup as [|? ? Hfresh' Hrest]; subst.
  assert (Hfresh : ~ In (rule_resource r) (map rule_resource rest))
    by (rewrite <- list_elem_of_In; exact Hfresh').
  cbn [Security.applyRules]. unfold bind.
  destruct Hin as [->|Hin].
  - unfold Security.hasPermission.
    destruct (rule_type_of rule); cbn;
      rewrite (applyRules_other rest _ Hfresh); cbn;
      rewrite JsMap_get_set_eq; reflexivity.
  - destruct (rule_type_of r); cbn; apply (IH Hrest); exact Hin.
Qed.

(** X9. [applyPolicy] of a name that is not a loaded policy throws and
    changes nothing. Of a loaded policy it never throws; when the rules
    name different resources, each resource is afterwards decided by its
    rule, allow or deny, by an exact entry; the audit log is untouched. *)
Theorem applyPolicy_sets_rules (policyName : string) (s : ShellState) :
  match sec_securityPolicies (securityContext s) !! policyName with
  | None =>
      Security.applyPolicy policyName s =
      (Throw (Error ("Security policy '" +:+ policyName +:+ "' not found")),
       s)
  | Some policy =>
      let s' := snd (Security.applyPolicy policyName s) in
      fst (Security.applyPolicy policyName s) = Ok tt /\
      sec_auditLog (securityContext s') = sec_auditLog (securityContext s) /\
      (NoDup (map rule_resource (policy_rules policy)) ->
       forall rule, In rule (policy_rules policy) ->
         Security.hasPermission (securityContext s') (rule_resource rule) =
         Ok match rule_type_of rule with allow => true | deny => false end)
  end.
Proof.
  unfold Security.applyPolicy. unfold bind at 1 2 3 4. unfold gets.
  destruct (sec_securityPolicies (securityContext s) !! policyName)
    as [policy|]; [|reflexivity].
  cbn. split; [apply applyRules_ok|]. split; [apply applyRules_audit|].
  intros Hnodup rule Hin. apply applyRules_decides; assumption.
Qed.

Lemma someWildcard_scan (permissions : list string) (permission : string) :
  Sandbox.someWildcard permissions permission =
  Security.scanWildcards (map (fun p => (p, true)) permissions) permission.
Proof.
  induction permissions as [|p rest IH]; simpl; [reflexivity|].
  destruct (Js.includes "*" p); [|exact IH].
  destruct (regexp_test _ _) as [[|]|e]; [reflexivity|exact IH|reflexivity].
Qed.

Lemma get_all_allowed (permissions : list string) (permission : string) :
  JsMap.get permission (map (fun p => (p, true)) permissions) =
  if existsb (String.eqb permission) permissions then Some true else None.
Proof.
  induction permissions as [|p rest IH]; simpl; [reflexivity|].
  destruct (String.eqb permission p); [reflexivity|exact IH].
Qed.

(** X10. The check of a sandbox made by [createSandbox(permissions)] is
    the lookup of [hasPermission] in a map that grants each of the listed
    permissions and holds nothing else: the sandbox can only allow, and
    the grants and denials of the security context play no part in it. *)
Theorem sandbox_check_is_allow_lookup (permissions : list string)
    (permission : string) :
  Sandbox.checkPermission permissions permission =
  Security.hasPermission
    (Security.with_permissions
       (fun _ => map (fun p => (p, true)) permissions) Security.empty)
    permission.
Proof.
  unfold Sandbox.checkPermission, Security.hasPermission. cbn.
  rewrite get_all_allowed.
  destruct (existsb (String.eqb permission) permissions); [reflexivity|].
  apply someWildcard_scan.
Qed.

End Grants.

Section GrantScenarios.
#[local] Existing Instance Scenario.host.

Lemma registerCommand_registry_witness :
  (exists command s',
      Engine.registerCommand "deploy" "Deploy the build" ["proc:exec"]
        Scenario.started = (Ok command, s') /\
      eng_commands (commandEngine s') !! "deploy" = Some command /\
      eng_commands (commandEngine s') !! "pwd" =
      eng_commands (commandEngine Scenario.started) !! "pwd") /\
  Engine.registerCommand "pwd" "Print working directory" [] Scenario.started =
  (Throw (Error "Command 'pwd' is already registered"), Scenario.started).
Proof.
  split.
  - destruct (registerCommand_registry "deploy" "Deploy the build"
                ["proc:exec"] Scenario.started)
      as (command & s' & Hrun & Hfound & _ & _ & Hother & _).
    exists command, s'. split; [exact Hrun|]. split; [exact Hfound|].
    apply Hother. discriminate.
  - exact (registerCommand_registry "pwd" "Print working directory" []
             Scenario.started).
Defined.

(** Granting [proc:kill:1] after the sandbox policy has denied
    [proc:kill:*] *)
Lemma grantPermission_grants_witness :
  let s' := snd (Security.grantPermission "proc:kill:1" Scenario.sandboxed) in
  Security.hasPermission (securityContext Scenario.sandboxed) "proc:kill:1"
    = Ok false /\
  Security.hasPermission (securityContext s') "proc:kill:1" = Ok true /\
  JsMap.get "proc:kill:*" (sec_permissions (securityContext s')) =
  JsMap.get "proc:kill:*" (sec_permissions (securityContext Scenario.sandboxed)).
Proof.
  intros s'. split; [reflexivity|].
  destruct (grantPermission_grants "proc:kill:1" Scenario.sandboxed)
    as (Hgranted & Hother & _).
  split; [exact Hgranted|]. apply Hother. discriminate.
Defined.

Lemma applyPolicy_sets_rules_witness :
  let s' := snd (Security.applyPolicy "sandbox" Scenario.started) in
  Security.hasPermission (securityContext s') "proc:kill:*" = Ok false /\
  Security.hasPermission (securityContext s') "fs:read:*" = Ok true /\
  Security.applyPolicy "production" Scenario.started =
  (Throw (Error "Security policy 'production' not found"), Scenario.started).
Proof.
  intros s'.
  pose proof (applyPolicy_sets_rules "sandbox" Scenario.started) as Hpolicy.
  change (sec_securityPolicies (securityContext Scenario.started) !! "sandbox")
    with (Some Security.sandbox_policy) in Hpolicy.
  destruct Hpolicy as (_ & _ & Hrules).
  assert (Hnodup : NoDup (map rule_resource
                            (policy_rules Security.sandbox_policy))).
  { repeat (apply NoDup_cons_2;
            [rewrite list_elem_of_In; simpl; intuition discriminate|]).
    apply NoDup_nil_2. }
  split; [|split].
  - exact (Hrules Hnodup {| rule_type_of := deny;
                            rule_resource := "proc:kill:*" |}
             ltac:(simpl; tauto)).
  - exact (Hrules Hnodup {| rule_type_of := allow;
                            rule_resource := "fs:read:*" |}
             ltac:(simpl; tauto)).
  - exact (applyPolicy_sets_rules "production" Scenario.started).
Defined.

End GrantScenarios.

(** ** Wildcard keys under ECMAScript's regular expressions *)

Lemma plain_head (c : ascii) :
  Plain.is_plain c = true ->
  Ascii.eqb c "*" = false /\ Ascii.eqb c "." = false /\
  RegExp.is_syntax c = false.
Proof.
  unfold Plain.is_plain. intros Hplain.
  apply andb_true_iff in Hplain as [Hplain Hsyntax].
  apply andb_true_iff in Hplain as [Hstar Hdot].
  repeat split; apply negb_true_iff; assumption.
Qed.

Lemma parse_plain_star (k : string) :
  Js.all_chars Plain.is_plain k = true ->
  RegExp.parse (k +:+ ".*") =
  RegExp.Items (Plain.literals k ++ [(RegExp.AnyChar, true)]).
Proof.
  induction k as [|c r IH]; [reflexivity|].
  cbn [Js.all_chars]. intros Hall.
  apply andb_true_iff in Hall as [Hc Hr].
  destruct (plain_head c Hc) as (Hstar & Hdot & Hsyntax).
  specialize (IH Hr).
  change (String c r +:+ ".*") with (String c (r +:+ ".*")).
  cbn [RegExp.parse]. rewrite Hstar, Hsyntax.
  unfold RegExp.atom_of. rewrite Hdot.
  assert (Hnext : match r +:+ ".*" with
                  | String "*" _ => False
                  | _ => True
                  end).
  { destruct r as [|d r']; [exact I|].
    cbn [Js.all_chars] in Hr. apply andb_true_iff in Hr as [Hd _].
    destruct (plain_head d Hd) as (Hdstar & _).
    change (String d r' +:+ ".*") with (String d (r' +:+ ".*")).
    destruct d as [[] [] [] [] [] [] [] []]; try exact I. discriminate. }
  destruct (r +:+ ".*") as [|d rest] eqn:Hrest.
  - rewrite IH. reflexivity.
  - destruct d as [[] [] [] [] [] [] [] []];
      try (rewrite IH; reflexivity). destruct Hnext.
Qed.

Lemma match_here_plain_star (k : string) :
  forall s,
    RegExp.match_here (Plain.literals k ++ [(RegExp.AnyChar, true)]) s =
    String.prefix k s.
Proof.
  induction k as [|c r IH]; intros s.
  - destruct s; reflexivity.
  - destruct s as [|d s']; [reflexivity|].
    cbn [Plain.literals app RegExp.match_here RegExp.atom_matches
         String.prefix].
    rewrite IH. destruct (ascii_dec c d) as [->|Hne].
    + rewrite Ascii.eqb_refl. reflexivity.
    + assert (Hneq : Ascii.eqb d c = false)
        by (apply Ascii.eqb_neq; congruence).
      rewrite Hneq. reflexivity.
Qed.

Lemma search_plain_star (k s : string) :
  RegExp.search (Plain.literals k ++ [(RegExp.AnyChar, true)]) s =
  Js.includes k s.
Proof.
  induction s as [|d s' IH]; cbn [RegExp.search Js.includes];
    rewrite match_here_plain_star; [reflexivity|].
  rewrite IH. reflexivity.
Qed.

Lemma plain_no_star (k : string) :
  Js.all_chars Plain.is_plain k = true -> Js.count "*" k = 0.
Proof.
  induction k as [|c r IH]; [reflexivity|].
  cbn [Js.all_chars Js.count]. intros Hall.
  apply andb_true_iff in Hall as [Hc Hr].
  destruct (plain_head c Hc) as (Hstar & _).
  rewrite Hstar, (IH Hr). reflexivity.
Qed.

Lemma replace_trailing_star (k : string) :
  Js.count "*" k = 0 -> Js.replace "*" ".*" (k +:+ "*") = k +:+ ".*".
Proof.
  induction k as [|c r IH]; [reflexivity|].
  cbn [Js.count]. change (String c r +:+ "*") with (String c (r +:+ "*")).
  cbn [Js.replace]. destruct (Ascii.eqb c "*"); [discriminate|].
  intros Hr. cbn in Hr. rewrite (IH Hr). reflexivity.
Qed.

Lemma count_append (c : ascii) (a b : string) :
  Js.count c (a +:+ b) = Js.count c a + Js.count c b.
Proof.
  induction a as [|d r IH]; [reflexivity|].
  change (String d r +:+ b) with (String d (r +:+ b)).
  cbn [Js.count]. rewrite IH. lia.
Qed.

(** X11. With ECMAScript's regular expressions, a stored key made of
    ordinary characters followed by [*] matches a queried permission
    exactly when the text before the [*] occurs somewhere in the query:
    the test is a search, not a match from the start. *)
Theorem trailing_wildcard_is_substring_search (k permission : string) :
  Js.all_chars Plain.is_plain k = true ->
  @Security.matches Scenario.host (k +:+ "*") permission <->
  Js.includes k permission = true.
Proof.
  intros Hplain. unfold Security.matches. cbn [regexp_test Scenario.host].
  rewrite (replace_trailing_star k (plain_no_star k Hplain)).
  unfold RegExp.test. rewrite (parse_plain_star k Hplain).
  rewrite search_plain_star.
  assert (Hstar : Js.includes "*" (k +:+ "*") = true).
  { rewrite (includes_char "*"), count_append. cbn [Js.count].
    rewrite Ascii.eqb_refl. apply negb_true_iff, Nat.eqb_neq. lia. }
  split.
  - intros [_ Htest]. congruence.
  - intros Hin. split; [exact Hstar|]. rewrite Hin. reflexivity.
Qed.

Lemma trailing_wildcard_is_substring_search_witness :
  Js.all_chars Plain.is_plain "fs:read:" = true /\
  Js.startsWith "fs:read:" "net:download:fs:read:/etc/shadow" = false /\
  @Security.matches Scenario.host "fs:read:*"
    "net:download:fs:read:/etc/shadow".
Proof.
  split; [reflexivity|]. split; [reflexivity|].
  apply (proj2 (trailing_wildcard_is_substring_search "fs:read:"
                  "net:download:fs:read:/etc/shadow" eq_refl)).
  reflexivity.
Defined.

(** ** More of the object bridge *)

Section BridgeFacts.
Context `{Host}.

(** X12. [proc.exec] resolves whenever the child was spawned, whatever its
    exit code and whatever the check of [proc:exec] decided: the result
    has the code, the output and [success], which is true for code 0 only. *)
Theorem exec_reports_exit (command : string) (args : list string)
    (cwd : option string) (env : gmap string string) (s : ShellState)
    (granted : bool) (code : option Z) (out err : string) :
  let dir :=
    match cwd with
    | Some d => if Js.is_empty d then currentDirectory s else d
    | None => currentDirectory s
    end in
  Security.hasPermission (securityContext s) "proc:exec" = Ok granted ->
  child (host_log s) (Spawn command args true dir (env ∪ environment s))
    = Closed code out err ->
  fst (Bridge.exec command args cwd env s) =
    Ok (Bridge.ProcessResult code out err command) /\
  prop "success" (Bridge.ProcessResult code out err command) =
    Some (VBool match code with Some 0%Z => true | _ => false end) /\
  prop "code" (Bridge.ProcessResult code out err command) =
    Some match code with Some c => VNum c | None => VNull end.
Proof.
  intros dir Hdecision Hchild. unfold Bridge.exec. unfold bind at 1.
  rewrite (checkPermission_decided _ _ _ _ Hdecision).
  unfold_M. cbn. fold dir. rewrite Hchild. repeat split.
Qed.

(** X13. [net.download] checks [net:download:url] and then
    [fs:write:path], one audit entry each, and goes on whatever the two
    decisions are: it fetches the url and writes what it received to the
    path. When the fetch throws, nothing is written. *)
Theorem download_fetches_then_writes (url filePath : string)
    (s : ShellState) (g1 g2 : bool) :
  Security.hasPermission (securityContext s) ("net:download:" +:+ url)
    = Ok g1 ->
  Security.hasPermission (securityContext s) ("fs:write:" +:+ filePath)
    = Ok g2 ->
  let r := Bridge.download url filePath s in
  sec_auditLog (securityContext (snd r)) =
    sec_auditLog (securityContext s) ++
    [ Audit.entry (clock s) ∅ g1 ("net:download:" +:+ url);
      Audit.entry (clock s) ∅ g2 ("fs:write:" +:+ filePath) ] /\
  match respond (host_log s) (Fetch "GET" url None) with
  | Throw e =>
      fst r = Throw e /\
      host_log (snd r) = host_log s ++ [Fetch "GET" url None]
  | Ok buffer =>
      host_log (snd r) =
      host_log s ++ [Fetch "GET" url None; FsWriteFile filePath buffer]
  end.
Proof.
  intros Hnet Hwrite r. subst r. unfold Bridge.download, Bridge.perform.
  unfold_M. rewrite (checkPermission_decided _ _ _ _ Hnet).
  rewrite (checkPermission_decided ("fs:write:" +:+ filePath) ∅ _ g2)
    by exact Hwrite.
  cbn.
  destruct (respond (host_log s) (Fetch "GET" url None)) as [buffer|e]; cbn.
  - destruct (respond _ (FsWriteFile filePath buffer)); cbn;
      rewrite <- !app_assoc; split; reflexivity.
  - rewrite <- app_assoc. repeat split.
Qed.

End BridgeFacts.

(** ** [utils.parseArgs] and [parseCommand] *)

Lemma parsePart_flags_none (acc : list string * gmap string value)
    (part k : string) :
  snd (Engine.parsePart acc part) !! k = None -> snd acc !! k = None.
Proof.
  intros Hnone. destruct (snd acc !! k) eqn:Hk; [|reflexivity].
  pose proof (parsePart_flags_grow acc part k (mk_is_Some _ _ Hk)) as [w Hw].
  congruence.
Qed.

Lemma fold_parsePart_flags_none (parts : list string) (k : string)
    (acc : list string * gmap string value) :
  snd (fold_left Engine.parsePart parts acc) !! k = None ->
  snd acc !! k = None.
Proof.
  intros Hnone. destruct (snd acc !! k) eqn:Hk; [|reflexivity].
  pose proof (fold_parsePart_flags_grow parts k acc (mk_is_Some _ _ Hk))
    as [w Hw].
  congruence.
Qed.

Lemma parseArg_parsePart (acc : list string * gmap string value)
    (arg : string) :
  snd (Engine.parsePart acc arg) !! "_" = None ->
  Utils.parseArg (<["_" := VList (map VStr (fst acc))]> (snd acc)) arg =
  Ok (<["_" := VList (map VStr (fst (Engine.parsePart acc arg)))]>
        (snd (Engine.parsePart acc arg))).
Proof.
  destruct acc as [args flags]. unfold Engine.parsePart, Utils.parseArg.
  remember (Js.split "=" (Js.slice 2 arg)) as pieces eqn:Hpieces.
  remember (Js.slice 1 arg) as short eqn:Hshort.
  clear Hpieces Hshort. cbn [fst snd].
  destruct (Js.startsWith "--" arg); [|destruct (Js.startsWith "-" arg)];
    cbn [fst snd]; intros Hnone.
  - f_equal. apply insert_insert_ne. intros Heq.
    rewrite <- Heq, lookup_insert_eq in Hnone. discriminate.
  - f_equal. apply insert_insert_ne. intros Heq.
    rewrite <- Heq, lookup_insert_eq in Hnone. discriminate.
  - rewrite lookup_insert_eq. f_equal.
    rewrite insert_insert_eq, map_app. reflexivity.
Qed.

Lemma parseFrom_fold (args : list string) :
  forall acc : list string * gmap string value,
    snd (fold_left Engine.parsePart args acc) !! "_" = None ->
    Utils.parseFrom args (<["_" := VList (map VStr (fst acc))]> (snd acc)) =
    Ok (<["_" := VList (map VStr
                          (fst (fold_left Engine.parsePart args acc)))]>
          (snd (fold_left Engine.parsePart args acc))).
Proof.
  induction args as [|arg rest IH]; intros acc Hnone; [reflexivity|].
  cbn [Utils.parseFrom fold_left] in *.
  rewrite parseArg_parsePart
    by exact (fold_parsePart_flags_none rest "_" _ Hnone).
  apply IH, Hnone.
Qed.

(** X14. [utils.parseArgs], given the words of a line after the command
    name, yields the flags of [parseCommand] and, under [_], its
    positional arguments, as long as the line has no flag named [_]. *)
Theorem parseArgs_agrees_with_parseCommand (input : string) :
  pc_flags (Engine.parseCommand input) !! "_" = None ->
  Utils.parseArgs (tl (Engine.parts_of input)) =
  Ok (<["_" := VList (map VStr (pc_args (Engine.parseCommand input)))]>
        (pc_flags (Engine.parseCommand input))).
Proof.
  rewrite parseCommand_flags_fold, parseCommand_args. intros Hnone.
  unfold Utils.parseArgs.
  rewrite <- (parseFrom_fold _ ([], ∅) Hnone). reflexivity.
Qed.

Lemma parseArgs_agrees_with_parseCommand_witness :
  pc_flags (Engine.parseCommand "cp -r --mode=fast a b") !! "_" = None /\
  Utils.parseArgs ["-r"; "--mode=fast"; "a"; "b"] =
  Ok (<["_" := VList [VStr "a"; VStr "b"]]>
        (<["mode" := VStr "fast"]> (<["r" := VBool true]> ∅))).
Proof.
  assert (Hnone : pc_flags (Engine.parseCommand "cp -r --mode=fast a b")
                    !! "_" = None) by (vm_compute; reflexivity).
  split; [exact Hnone|].
  etransitivity;
    [exact (parseArgs_agrees_with_parseCommand "cp -r --mode=fast a b" Hnone)|].
  vm_compute. reflexivity.
Defined.

Section BridgeScenarios.
#[local] Existing Instance Scenario.host.

Lemma exec_reports_exit_witness :
  fst (Bridge.exec "false" [] None ∅ Scenario.sandboxed) =
    Ok (Bridge.ProcessResult (Some 1%Z) EmptyString EmptyString "false") /\
  prop "success"
    (Bridge.ProcessResult (Some 1%Z) EmptyString EmptyString "false") =
    Some (VBool false) /\
  prop "code"
    (Bridge.ProcessResult (Some 1%Z) EmptyString EmptyString "false") =
    Some (VNum 1).
Proof.
  apply (exec_reports_exit "false" [] None ∅ Scenario.sandboxed false
           (Some 1%Z) EmptyString EmptyString);
    vm_compute; reflexivity.
Defined.

Lemma download_fetches_then_writes_witness :
  let r := Bridge.download "http://h/x" "/etc/passwd" Scenario.sandboxed in
  sec_auditLog (securityContext (snd r)) =
    sec_auditLog (securityContext Scenario.sandboxed) ++
    [ Audit.entry 1000 ∅ false "net:download:http://h/x";
      Audit.entry 1000 ∅ false "fs:write:/etc/passwd" ] /\
  host_log (snd r) =
    host_log Scenario.sandboxed ++
    [ Fetch "GET" "http://h/x" None; FsWriteFile "/etc/passwd" VUndefined ].
Proof.
  assert (Hnet : Security.hasPermission
            (securityContext Scenario.sandboxed)
            ("net:download:" +:+ "http://h/x") = Ok false)
    by (vm_compute; reflexivity).
  assert (Hwrite : Security.hasPermission
            (securityContext Scenario.sandboxed)
            ("fs:write:" +:+ "/etc/passwd") = Ok false)
    by (vm_compute; reflexivity).
  exact (download_fetches_then_writes "http://h/x" "/etc/passwd"
           Scenario.sandboxed false false Hnet Hwrite).
Defined.

End BridgeScenarios.

(** ** [export] and [unset] *)

Lemma split_key (sep : ascii) (rest : string) (key : string) :
  Js.count sep key = 0 ->
  Js.split sep (key +:+ String sep rest) = key :: Js.split sep rest.
Proof.
  induction key as [|c r IH]; simpl.
  - intros _. rewrite Ascii.eqb_refl. reflexivity.
  - destruct (Ascii.eqb c sep); [discriminate|].
    intros Hcount. rewrite (IH Hcount). reflexivity.
Qed.

Lemma split_no_sep (sep : ascii) (key : string) :
  Js.count sep key = 0 -> Js.split sep key = [key].
Proof.
  induction key as [|c r IH]; cbn [Js.count Js.split]; [reflexivity|].
  destruct (Ascii.eqb c sep); [discriminate|].
  intros Hcount. rewrite (IH Hcount). reflexivity.
Qed.

Lemma join_head (sep : string) (c : ascii) (h : string) (t : list string) :
  Commands.join sep (String c h :: t) = String c (Commands.join sep (h :: t)).
Proof. destruct t; reflexivity. Qed.

Lemma join_split (sep : ascii) (s : string) :
  Commands.join (String sep EmptyString) (Js.split sep s) = s.
Proof.
  induction s as [|c r IH]; [reflexivity|]. cbn [Js.split].
  pose proof (split_nonempty sep r) as Hne.
  destruct (Ascii.eqb c sep) eqn:Hc.
  - apply Ascii.eqb_eq in Hc as ->.
    destruct (Js.split sep r) as [|h t]; [contradiction|].
    change (Commands.join (String sep EmptyString) (EmptyString :: h :: t))
      with (String sep (Commands.join (String sep EmptyString) (h :: t))).
    rewrite IH. reflexivity.
  - destruct (Js.split sep r) as [|h t]; [contradiction|].
    rewrite join_head, IH. reflexivity.
Qed.

Lemma exportEach_one (key value arg : string) (s : ShellState) :
  hd EmptyString (Js.split "=" arg) = key ->
  Commands.join "=" (tl (Js.split "=" arg)) = value ->
  Js.is_empty key = false ->
  key <> "__proto__" ->
  Commands.export [arg] s =
  (Ok (VStr ("Exported: " +:+ key +:+ "=" +:+ value)),
   Scenario.with_environment (insert key value) s).
Proof.
  intros Hkey Hvalue Hempty Hproto.
  unfold Commands.export, Commands.exportEach. rewrite Hkey, Hvalue, Hempty.
  unfold_M. cbn. unfold Commands.assign.
  apply String.eqb_neq in Hproto. rewrite Hproto. reflexivity.
Qed.

(** X15. [export KEY=VALUE] stores under [KEY] the whole text after the
    first [=], further [=] signs included, and [export KEY] stores the
    empty string; nothing else of the shell changes. [KEY] is not empty,
    has no [=] and is not [__proto__]. *)
Theorem export_stores_text_after_first_equals (key value : string)
    (s : ShellState) :
  Js.is_empty key = false ->
  Js.count "=" key = 0 ->
  key <> "__proto__" ->
  Commands.export [key +:+ "=" +:+ value] s =
    (Ok (VStr ("Exported: " +:+ key +:+ "=" +:+ value)),
     Scenario.with_environment (insert key value) s) /\
  Commands.export [key] s =
    (Ok (VStr ("Exported: " +:+ key +:+ "=")),
     Scenario.with_environment (insert key EmptyString) s).
Proof.
  intros Hempty Hcount Hproto. split.
  - apply exportEach_one; try assumption.
    + change (key +:+ "=" +:+ value) with (key +:+ String "=" value).
      rewrite (split_key "=" value key Hcount). reflexivity.
    + change (key +:+ "=" +:+ value) with (key +:+ String "=" value).
      rewrite (split_key "=" value key Hcount). apply (join_split "=").
  - apply (exportEach_one key EmptyString); try assumption;
      rewrite (split_no_sep "=" key Hcount); reflexivity.
Qed.

Lemma export_stores_text_after_first_equals_witness :
  Commands.export ["OPTS=a=b=c"] Scenario.started =
    (Ok (VStr "Exported: OPTS=a=b=c"),
     Scenario.with_environment (insert "OPTS" "a=b=c") Scenario.started) /\
  Commands.export ["OPTS"] Scenario.started =
    (Ok (VStr "Exported: OPTS="),
     Scenario.with_environment (insert "OPTS" EmptyString) Scenario.started).
Proof.
  apply (export_stores_text_after_first_equals "OPTS" "a=b=c" Scenario.started);
    [reflexivity|reflexivity|discriminate].
Defined.

(** X16. An argument of [export] that starts with [=] is refused with
    'Invalid assignment', after the arguments before it have been
    exported: they stay in the environment. *)
Theorem export_keeps_earlier_assignments (key value rest : string)
    (more : list string) (s : ShellState) :
  Js.is_empty key = false ->
  Js.count "=" key = 0 ->
  key <> "__proto__" ->
  Commands.export ((key +:+ "=" +:+ value) :: ("=" +:+ rest) :: more) s =
    (Throw (Error ("Invalid assignment: =" +:+ rest)),
     Scenario.with_environment (insert key value) s).
Proof.
  intros Hempty Hcount Hproto.
  unfold Commands.export, Commands.exportEach.
  change (key +:+ "=" +:+ value) with (key +:+ String "=" value).
  rewrite (split_key "=" value key Hcount).
  cbn [hd tl]. rewrite Hempty, (join_split "=").
  change ("=" +:+ rest) with (String "=" rest).
  cbn [Js.split]. rewrite Ascii.eqb_refl. cbn [hd Js.is_empty].
  unfold_M. cbn. unfold Commands.assign.
  apply String.eqb_neq in Hproto. rewrite Hproto. reflexivity.
Qed.

Lemma export_keeps_earlier_assignments_witness :
  Commands.export ["A=1"; "=2"; "B=3"] Scenario.started =
    (Throw (Error "Invalid assignment: =2"),
     Scenario.with_environment (insert "A" "1") Scenario.started).
Proof.
  apply (export_keeps_earlier_assignments "A" "1" "2" ["B=3"]
           Scenario.started);
    [reflexivity|reflexivity|discriminate].
Defined.

Lemma with_environment_twice (f g : gmap string string -> gmap string string)
    (s : ShellState) :
  Scenario.with_environment g (Scenario.with_environment f s) =
  Scenario.with_environment (fun env => g (f env)) s.
Proof. reflexivity. Qed.

Lemma with_environment_ext (f g : gmap string string -> gmap string string)
    (s : ShellState) :
  f (environment s) = g (environment s) ->
  Scenario.with_environment f s = Scenario.with_environment g s.
Proof. unfold Scenario.with_environment. intros ->. reflexivity. Qed.

Lemma with_environment_id (f : gmap string string -> gmap string string)
    (s : ShellState) :
  f (environment s) = environment s ->
  Scenario.with_environment f s = s.
Proof.
  unfold Scenario.with_environment. intros ->. destruct s. reflexivity.
Qed.

(** X17. [unset KEY] right after [export KEY=VALUE] reports 'Unset' and
    leaves the shell as if [KEY] had been removed from the environment
    before the two commands: a value [KEY] had earlier is not restored. *)
Theorem unset_after_export (key value : string) (s : ShellState) :
  Js.is_empty key = false ->
  Js.count "=" key = 0 ->
  key <> "__proto__" ->
  (Commands.export [key +:+ "=" +:+ value] >> Commands.unset [key]) s =
    (Ok (VStr ("Unset: " +:+ key)),
     Scenario.with_environment (delete key) s).
Proof.
  intros Hempty Hcount Hproto. unfold bind at 1.
  rewrite (exportEach_one key value); try assumption.
  - unfold Commands.unset, Commands.unsetEach. unfold_M. cbn.
    rewrite lookup_insert_eq. cbn.
    rewrite with_environment_twice. f_equal.
    apply with_environment_ext, delete_insert_eq.
  - change (key +:+ "=" +:+ value) with (key +:+ String "=" value).
    rewrite (split_key "=" value key Hcount). reflexivity.
  - change (key +:+ "=" +:+ value) with (key +:+ String "=" value).
    rewrite (split_key "=" value key Hcount). apply (join_split "=").
Qed.

Lemma unset_after_export_witness :
  (Commands.export ["HOME=/tmp"] >> Commands.unset ["HOME"])
    (Scenario.with_environment (insert "HOME" "/home/u") Scenario.started) =
    (Ok (VStr "Unset: HOME"),
     Scenario.with_environment (delete "HOME")
       (Scenario.with_environment (insert "HOME" "/home/u")
          Scenario.started)).
Proof.
  apply (unset_after_export "HOME" "/tmp");
    [reflexivity|reflexivity|discriminate].
Defined.

(** X18. [unset KEY] for a variable that is not set changes nothing. It
    reports 'Variable not found', except for the names a JavaScript object
    inherits ([toString], [constructor], ...), for which it reports
    'Unset'. *)
Theorem unset_of_unset_variable (key : string) (s : ShellState) :
  environment s !! key = None ->
  Commands.unset [key] s =
    (Ok (VStr ((if Commands.inherited key then "Unset: "
                else "Variable not found: ") +:+ key)),
     s).
Proof.
  intros Hnone. unfold Commands.unset, Commands.unsetEach.
  destruct (Commands.inherited key); unfold_M; cbn; rewrite Hnone;
    rewrite (bool_decide_eq_false_2 (is_Some None))
      by (intros [x Hx]; discriminate);
    cbn; [|reflexivity].
  f_equal. apply with_environment_id, delete_id, Hnone.
Qed.

Lemma unset_of_unset_variable_witness :
  Commands.unset ["toString"] Scenario.started =
    (Ok (VStr "Unset: toString"), Scenario.started) /\
  Commands.unset ["EDITOR"] Scenario.started =
    (Ok (VStr "Variable not found: EDITOR"), Scenario.started).
Proof.
  split.
  - apply (unset_of_unset_variable "toString" Scenario.started).
    vm_compute. reflexivity.
  - apply (unset_of_unset_variable "EDITOR" Scenario.started).
    vm_compute. reflexivity.
Defined.

(** ** The series of [PerformanceMonitor] *)

Lemma keepLast100_drop {A} (series : list A) :
  List.length series <= 101 ->
  Monitor.keepLast100 series = drop (List.length series - 100) series.
Proof.
  intros Hlen. unfold Monitor.keepLast100.
  destruct (Nat.ltb 100 (List.length series)) eqn:Hlt.
  - apply Nat.ltb_lt in Hlt.
    replace (List.length series - 100) with 1 by lia.
    destruct series; reflexivity.
  - apply Nat.ltb_ge in Hlt.
    replace (List.length series - 100) with 0 by lia. reflexivity.
Qed.

Lemma drop_drop_last100 {A} (old new : list A) :
  List.length old <= 101 ->
  drop (List.length (drop (List.length old - 100) old ++ new) - 100)
       (drop (List.length old - 100) old ++ new) =
  drop (List.length (old ++ new) - 100) (old ++ new).
Proof.
  intros Hlen. destruct (Nat.ltb 100 (List.length old)) eqn:Hlt.
  - apply Nat.ltb_lt in Hlt.
    replace (List.length old - 100) with 1 by lia.
    destruct old as [|a old']; [simpl in Hlt; lia|].
    simpl in Hlen, Hlt. cbn [drop app].
    rewrite !length_app. cbn [List.length].
    rewrite length_app.
    replace (S (List.length old' + List.length new) - 100)
      with (S (List.length old' + List.length new - 100)) by lia.
    reflexivity.
  - apply Nat.ltb_ge in Hlt.
    replace (List.length old - 100) with 0 by lia. reflexivity.
Qed.

Lemma recordLatencies_series (th : Thresholds) (samples : list (Z * Z)) :
  forall m : Metrics,
    List.length (pm_commandLatency m) <= 100 ->
    pm_commandLatency (Monitor.recordLatencies th samples m) =
    drop (List.length (pm_commandLatency m ++ map Monitor.sample samples) - 100)
         (pm_commandLatency m ++ map Monitor.sample samples).
Proof.
  unfold Monitor.recordLatencies.
  induction samples as [|sample rest IH]; intros m Hlen.
  - cbn [fold_left map]. rewrite app_nil_r.
    replace (List.length (pm_commandLatency m) - 100) with 0 by lia.
    reflexivity.
  - cbn [fold_left map].
    assert (Hpush : List.length (pm_commandLatency m ++ [Monitor.sample sample])
                    <= 101)
      by (rewrite length_app; cbn [List.length]; lia).
    rewrite IH.
    + cbn [Monitor.recordCommandLatency pm_commandLatency].
      change {| ls_timestamp := fst sample; ls_latency := snd sample |}
        with (Monitor.sample sample).
      rewrite (keepLast100_drop _ Hpush).
      rewrite (drop_drop_last100 _ (map Monitor.sample rest) Hpush).
      rewrite <- app_assoc. reflexivity.
    + cbn [Monitor.recordCommandLatency pm_commandLatency].
      change {| ls_timestamp := fst sample; ls_latency := snd sample |}
        with (Monitor.sample sample).
      rewrite (keepLast100_drop _ Hpush), length_drop. lia.
Qed.

Lemma recordLatencies_counts (th : Thresholds) (samples : list (Z * Z)) :
  forall m : Metrics,
    pm_errors (Monitor.recordLatencies th samples m) =
      (pm_errors m +
       Z.of_nat (List.length
         (List.filter (fun sample => th_latencyError th <? snd sample)
                      samples)))%Z /\
    pm_warnings (Monitor.recordLatencies th samples m) =
      (pm_warnings m +
       Z.of_nat (List.length
         (List.filter (fun sample =>
                         negb (th_latencyError th <? snd sample) &&
                         (th_latencyWarning th <? snd sample))
                      samples)))%Z.
Proof.
  unfold Monitor.recordLatencies.
  induction samples as [|sample rest IH]; intros m.
  - cbn. split; lia.
  - cbn [fold_left List.filter].
    destruct (IH (Monitor.recordCommandLatency th (fst sample) (snd sample) m))
      as [Herr Hwarn].
    rewrite Herr, Hwarn.
    cbn [Monitor.recordCommandLatency pm_errors pm_warnings].
    destruct (th_latencyError th <? snd sample)%Z;
      [|destruct (th_latencyWarning th <? snd sample)%Z];
      cbn [negb andb List.length]; split; lia.
Qed.

(** X19. After any run of [recordCommandLatency] calls on a new monitor
    the latency series holds the last 100 samples of the run, oldest
    first, and never more; the error counter has counted the latencies
    above [latencyError], the warning counter those above
    [latencyWarning] and not above [latencyError]. *)
Theorem recordCommandLatency_keeps_last_100 (th : Thresholds)
    (samples : list (Z * Z)) :
  let m := Monitor.recordLatencies th samples Monitor.empty in
  pm_commandLatency m =
    map Monitor.sample (drop (List.length samples - 100) samples) /\
  List.length (pm_commandLatency m) <= 100 /\
  pm_errors m =
    Z.of_nat (List.length
      (List.filter (fun sample => th_latencyError th <? snd sample)%Z
                   samples)) /\
  pm_warnings m =
    Z.of_nat (List.length
      (List.filter (fun sample =>
                      negb (th_latencyError th <? snd sample)%Z &&
                      (th_latencyWarning th <? snd sample)%Z)
                   samples)).
Proof.
  intros m. subst m.
  assert (Hseries :
            pm_commandLatency
              (Monitor.recordLatencies th samples Monitor.empty) =
            map Monitor.sample (drop (List.length samples - 100) samples)).
  { rewrite recordLatencies_series by (cbn; lia).
    cbn [Monitor.empty pm_commandLatency app].
    rewrite length_map. apply skipn_map. }
  split; [exact Hseries|]. split.
  - rewrite Hseries, length_map, length_drop. lia.
  - destruct (recordLatencies_counts th samples Monitor.empty)
      as [Herr Hwarn].
    rewrite Herr, Hwarn. cbn [Monitor.empty pm_errors pm_warnings].
    split; lia.
Qed.

(** ** The REPL *)

Lemma distinct_neighbours_tl (history : list string) :
  Repl.distinct_neighbours history = true ->
  Repl.distinct_neighbours (tl history) = true.
Proof.
  destruct history as [|a [|b rest]]; cbn; try reflexivity.
  intros Hd. apply andb_true_iff in Hd as [_ Hd]. exact Hd.
Qed.

Lemma distinct_neighbours_push (input : string) (history : list string) :
  Repl.distinct_neighbours history = true ->
  match last history with
  | Some l => String.eqb input l
  | None => false
  end = false ->
  Repl.distinct_neighbours (history ++ [input]) = true.
Proof.
  induction history as [|a [|b rest] IH]; intros Hd Hlast.
  - reflexivity.
  - cbn in *. rewrite String.eqb_sym, Hlast. reflexivity.
  - cbn [Repl.distinct_neighbours app] in *.
    apply andb_true_iff in Hd as [Hab Hd]. rewrite Hab.
    apply IH; assumption.
Qed.

Lemma last_push_tl (input : string) (history : list string) :
  history <> [] -> last (tl (history ++ [input])) = Some input.
Proof.
  destruct history as [|a rest]; [contradiction|]. intros _.
  cbn [app tl]. apply last_snoc.
Qed.

(** X20. [addToHistory] keeps the history well formed: at most 1000
    entries, no empty entry, no entry equal to the one after it. A
    non-empty input is the last entry afterwards; when the history was
    full, its oldest entry is the one dropped. *)
Theorem addToHistory_keeps_history_bounded (input : string) (r : Repl) :
  List.length (repl_history r) <= 1000 ->
  Forall (fun e => Js.is_empty e = false) (repl_history r) ->
  Repl.distinct_neighbours (repl_history r) = true ->
  let r' := Repl.addToHistory input r in
  List.length (repl_history r') <= 1000 /\
  Forall (fun e => Js.is_empty e = false) (repl_history r') /\
  Repl.distinct_neighbours (repl_history r') = true /\
  (Js.is_empty input = false -> last (repl_history r') = Some input) /\
  (List.length (repl_history r) = 1000 ->
   Js.is_empty input = false ->
   last (repl_history r) <> Some input ->
   repl_history r' = tl (repl_history r) ++ [input]).
Proof.
  intros Hlen Hfull Hdistinct r'. subst r'. unfold Repl.addToHistory.
  destruct (Js.is_empty input) eqn:Hempty; cbn [negb andb].
  { repeat split; try assumption; discriminate. }
  destruct (match last (repl_history r) with
            | Some l => String.eqb input l
            | None => false
            end) eqn:Hlast; cbn [negb repl_history].
  { repeat split; try assumption.
    - intros _. destruct (last (repl_history r)); [|discriminate].
      apply String.eqb_eq in Hlast as ->. reflexivity.
    - intros _ _ Hne. destruct (last (repl_history r)); [|discriminate].
      apply String.eqb_eq in Hlast as ->. contradiction. }
  assert (Hpushed : Forall (fun e => Js.is_empty e = false)
                           (repl_history r ++ [input])).
  { apply Forall_app. split; [exact Hfull|].
    apply Forall_cons. split; [exact Hempty|apply Forall_nil_2]. }
  pose proof (distinct_neighbours_push input _ Hdistinct Hlast) as Hd.
  destruct (Nat.ltb 1000 (List.length (repl_history r ++ [input]))) eqn:Hlt.
  - apply Nat.ltb_lt in Hlt. rewrite length_app in Hlt.
    cbn [List.length] in Hlt.
    assert (Hne : repl_history r <> [])
      by (intros Heq; rewrite Heq in Hlt; cbn [List.length] in Hlt; lia).
    repeat split.
    + destruct (repl_history r) as [|a rest]; [contradiction|].
      cbn [app tl]. rewrite length_app. cbn [List.length] in *. lia.
    + destruct (repl_history r) as [|a rest]; [contradiction|].
      cbn [app tl] in *. apply Forall_cons in Hpushed as [_ Hrest].
      exact Hrest.
    + apply distinct_neighbours_tl, Hd.
    + intros _. apply last_push_tl, Hne.
    + intros _ _ _. destruct (repl_history r); [contradiction|reflexivity].
  - apply Nat.ltb_ge in Hlt. rewrite length_app in Hlt.
    cbn [List.length] in Hlt.
    repeat split.
    + rewrite length_app. cbn [List.length]. lia.
    + exact Hpushed.
    + exact Hd.
    + intros _. apply last_snoc.
    + intros Hthousand. lia.
Qed.

Lemma addToHistory_keeps_history_bounded_witness :
  let r := {| repl_history := ["ls"; "pwd"];
              repl_multilineBuffer := EmptyString;
              repl_inMultilineMode := false |} in
  repl_history (Repl.addToHistory "pwd" r) = ["ls"; "pwd"] /\
  repl_history (Repl.addToHistory "ls" r) = ["ls"; "pwd"; "ls"] /\
  List.length (repl_history (Repl.addToHistory "ls" r)) <= 1000 /\
  last (repl_history (Repl.addToHistory "pwd" r)) = Some "pwd".
Proof.
  intros r.
  assert (Hlen : List.length (repl_history r) <= 1000)
    by (cbn; lia).
  assert (Hfull : Forall (fun e => Js.is_empty e = false) (repl_history r))
    by (repeat constructor).
  pose proof (addToHistory_keeps_history_bounded "ls" r Hlen Hfull eq_refl)
    as (Hbound & _).
  pose proof (addToHistory_keeps_history_bounded "pwd" r Hlen Hfull eq_refl)
    as (_ & _ & _ & Hlast & _).
  refine (conj eq_refl (conj eq_refl (conj Hbound (Hlast eq_refl)))).
Defined.

Section Multiline.
Context `{Host}.
Variable executeInput : string -> Repl -> M Repl.

Lemma handleInput_multiline (input : string) (r : Repl) (s : ShellState) :
  repl_inMultilineMode r = true ->
  Repl.handleInput executeInput input r s =
  (Ok {| repl_history := repl_history r;
         repl_multilineBuffer :=
           if Js.is_empty (Js.trim input) then repl_multilineBuffer r
           else repl_multilineBuffer r +:+ Commands.newline +:+ input;
         repl_inMultilineMode := true |},
   s).
Proof.
  intros Hmode. unfold Repl.handleInput.
  destruct (Js.is_empty (Js.trim input)).
  - destruct r. cbn in Hmode. subst. reflexivity.
  - rewrite Hmode. reflexivity.
Qed.

(** X21. Once the REPL is in multiline mode, no sequence of input lines
    runs the buffered command or leaves the mode: blank lines are
    ignored, every other line is appended to the buffer after a newline,
    and nothing is executed or added to the history. *)
Theorem multiline_mode_never_executes (inputs : list string) :
  forall (r : Repl) (s : ShellState),
    repl_inMultilineMode r = true ->
    Repl.handleInputs executeInput inputs r s =
    (Ok {| repl_history := repl_history r;
           repl_multilineBuffer :=
             fold_left
               (fun buffer input =>
                  if Js.is_empty (Js.trim input) then buffer
                  else buffer +:+ Commands.newline +:+ input)
               inputs (repl_multilineBuffer r);
           repl_inMultilineMode := true |},
     s).
Proof.
  induction inputs as [|input rest IH]; intros r s Hmode.
  - destruct r. cbn in *. subst. reflexivity.
  - cbn [Repl.handleInputs fold_left]. unfold bind.
    rewrite (handleInput_multiline input r s Hmode).
    rewrite IH by reflexivity. reflexivity.
Qed.

End Multiline.

Lemma multiline_mode_never_executes_witness :
  @Repl.handleInputs
    (fun input r => throw (Error ("executed: " +:+ input)))
    ["  x: 1"; EmptyString; "}"; "   "]
    {| repl_history := [];
       repl_multilineBuffer := "config = {";
       repl_inMultilineMode := true |}
    Scenario.started =
  (Ok {| repl_history := [];
         repl_multilineBuffer :=
           "config = {" +:+ Commands.newline +:+ "  x: 1" +:+
           Commands.newline +:+ "}";
         repl_inMultilineMode := true |},
   Scenario.started).
Proof.
  etransitivity;
    [apply (multiline_mode_never_executes
              (fun input r => throw (Error ("executed: " +:+ input))));
     reflexivity|].
  reflexivity.
Defined.

(** ** The shell around the engine *)

Section ShellFacts.
Context `{Host}.

Lemma runCommands_length (commands : list string) :
  forall (s s' : ShellState) (results : list value),
    Shell.runCommands commands s = (Ok results, s') ->
    List.length results = List.length commands.
Proof.
  induction commands as [|command rest IH]; intros s s' results.
  - cbn. intros Hrun. injection Hrun as <- _. reflexivity.
  - cbn [Shell.runCommands]. unfold bind.
    destruct (Shell.executeCommand command ∅ s) as [[result|e] s1];
      [|discriminate].
    destruct (Shell.runCommands rest s1) as [[results'|e] s2] eqn:Hrest;
      [|discriminate].
    cbn. intros Hrun. injection Hrun as <- _.
    cbn [List.length]. rewrite (IH _ _ _ Hrest). reflexivity.
Qed.

(** X22. A transaction whose commands all succeed returns one result per
    command and leaves the transaction stack as it found it. A transaction
    that fails is rolled back but not removed: its frame, with the
    snapshot, stays on the stack. *)
Theorem executeTransaction_stack (commands : list string)
    (options : TransactionOptions) (rnd : string) (sh : NexusShell) :
  let r := Shell.executeTransaction commands options rnd sh in
  match fst r with
  | Ok results =>
      transactionStack (snd r) = transactionStack sh /\
      List.length results = List.length commands
  | Throw _ =>
      transactionStack (snd r) =
      transactionStack sh ++
      [ {| tx_id := Shell.transactionId (clock (state sh)) rnd;
           tx_snapshot := Shell.createSnapshot (state sh);
           tx_commands := commands;
           tx_options := options |} ]
  end.
Proof.
  intros r. subst r. unfold Shell.executeTransaction.
  set (tx := {| tx_id := Shell.transactionId (clock (state sh)) rnd;
                tx_snapshot := Shell.createSnapshot (state sh);
                tx_commands := commands;
                tx_options := options |}).
  set (pushed := {| state := state sh;
                    transactionStack := transactionStack sh ++ [tx] |}).
  pose proof (on_state_stack (Shell.runCommands commands) pushed) as Hstack.
  unfold Shell.on_state in *. cbn [state transactionStack pushed] in *.
  destruct (Shell.runCommands commands (state sh))
    as [[results|failure] s1] eqn:Hrun; cbn in *.
  - split; [apply removelast_last|].
    exact (runCommands_length _ _ _ _ Hrun).
  - unfold Shell.rollbackTransaction. cbn [transactionStack].
    destruct (Shell.findTransaction _ _) as [found|]; [|reflexivity].
    pose proof (on_state_stack
      (Shell.restoreSnapshot (tx_snapshot found) >>
       match onRollback (tx_options found) with
       | Some callback =>
           callback (tx_id found) (tx_snapshot found) (tx_commands found)
       | None => ret tt
       end)%sh
      {| state := s1; transactionStack := transactionStack sh ++ [tx] |})
      as Hback.
    destruct (Shell.on_state _ _) as [[[]|failure'] sh2]; exact Hback.
Qed.

(** X23. [executeCommand] logs the decision on [command:execute] and runs
    the line all the same: whatever the decision, the engine executes the
    line, from the caller's state with the command counted and the audit
    entry added, and a result is timed. Outside a recording. *)
Theorem executeCommand_runs_whatever_the_decision (input : string)
    (context : gmap string value) (s : ShellState) (granted : bool) :
  isRunning s = true ->
  rec_recording (executionRecorder s) = false ->
  Security.hasPermission (securityContext s) "command:execute" = Ok granted ->
  Shell.executeCommand input context s =
  match Engine.execute input context
          (Audit.logged
             [ Audit.entry (clock s) {[ "input" := VStr input ]} granted
                           "command:execute" ]
             (with_stats (Shell.with_commandsExecuted Z.succ) s)) with
  | (Ok result, s') =>
      (Ok result,
       with_stats
         (Shell.with_timing (clock s' - clock s) (heapUsed (clock s'))) s')
  | (Throw error, s') => (Throw error, s')
  end.
Proof.
  intros Hrunning Hrecording Hdecision. unfold Shell.executeCommand.
  unfold bind at 1. unfold gets at 1. rewrite Hrunning. cbn [negb].
  unfold bind at 1. unfold Date_now at 1, gets at 1.
  unfold bind at 1. unfold modify at 1.
  unfold catch. unfold bind at 1.
  rewrite (checkPermission_decided "command:execute" _ _ granted)
    by exact Hdecision.
  unfold bind at 1. unfold Recorder.isRecording, gets at 1.
  cbn [executionRecorder with_securityContext with_stats].
  rewrite Hrecording. unfold bind at 1. unfold ret at 1.
  unfold bind at 1. unfold Audit.logged, Audit.entry.
  destruct (Engine.execute input context _) as [[result|error] s']; cbn;
    reflexivity.
Qed.

End ShellFacts.

Section ShellFactsScenarios.
#[local] Existing Instance Scenario.host.

Lemma executeCommand_runs_whatever_the_decision_witness :
  let revoked := snd (Security.revokePermission "command:execute"
                        Scenario.started) in
  Security.hasPermission (securityContext revoked) "command:execute"
    = Ok false /\
  fst (Shell.executeCommand "cd /tmp" ∅ revoked) =
    Ok (VStr "Changed directory to: /tmp") /\
  currentDirectory (snd (Shell.executeCommand "cd /tmp" ∅ revoked)) = "/tmp".
Proof.
  intros revoked.
  assert (Hdecision : Security.hasPermission (securityContext revoked)
                        "command:execute" = Ok false)
    by (vm_compute; reflexivity).
  split; [exact Hdecision|].
  rewrite (executeCommand_runs_whatever_the_decision "cd /tmp" ∅ revoked
             false eq_refl eq_refl Hdecision).
  split; vm_compute; reflexivity.
Defined.

End ShellFactsScenarios.

(** ** Starting the shell *)

Lemma JsMap_get_set_granted (k p : string) (m : list (string * bool)) :
  JsMap.get p m = Some true -> JsMap.get p (JsMap.set k true m) = Some true.
Proof.
  intros Hget. destruct (String.eqb k p) eqn:Hk.
  - apply String.eqb_eq in Hk as ->. apply JsMap_get_set_eq.
  - apply String.eqb_neq in Hk. rewrite JsMap_get_set_ne; assumption.
Qed.

Section Start.
Context `{Host}.

(** X24. [start] on a shell that is not running grants the default
    permissions again: each of the ten default keys is granted afterwards,
    whatever had been revoked or denied before, and the shell is running.
    A revocation of a default permission does not survive a restart. *)
Theorem start_grants_defaults_again (s : ShellState) (p : string) :
  isRunning s = false ->
  In p [ "command:execute"; "command:help"; "command:exit";
         "command:history"; "command:alias";
         "fs:read:" +:+ process_cwd s +:+ "/*";
         "fs:write:" +:+ process_cwd s +:+ "/*";
         "net:connect:localhost:*"; "proc:list"; "proc:info" ] ->
  fst (Shell.start s) = Ok tt /\
  isRunning (snd (Shell.start s)) = true /\
  Security.hasPermission (securityContext (snd (Shell.start s))) p = Ok true.
Proof.
  intros Hstopped Hin.
  assert (Hstart : Shell.start s =
                   (Security.initialize >>
                    modify (Shell.with_isRunning true))%sh s).
  { unfold Shell.start. unfold bind at 1, gets at 1.
    rewrite Hstopped. reflexivity. }
  rewrite Hstart. split; [reflexivity|]. split; [reflexivity|].
  unfold Security.hasPermission.
  assert (Hget : JsMap.get p
            (sec_permissions
               (securityContext
                  (snd ((Security.initialize >>
                         modify (Shell.with_isRunning true))%sh s)))) =
            Some true).
  { cbn. cbn in Hin.
    repeat (destruct Hin as [<-|Hin];
            [ repeat first [ apply JsMap_get_set_eq
                           | apply JsMap_get_set_granted ] | ]).
    destruct Hin. }
  rewrite Hget. reflexivity.
Qed.

End Start.

Section StartScenarios.
#[local] Existing Instance Scenario.host.

Lemma start_grants_defaults_again_witness :
  let revoked :=
    Shell.with_isRunning false
      (snd (Security.revokePermission "command:execute" Scenario.started)) in
  Security.hasPermission (securityContext revoked) "command:execute"
    = Ok false /\
  fst (Shell.start revoked) = Ok tt /\
  isRunning (snd (Shell.start revoked)) = true /\
  Security.hasPermission (securityContext (snd (Shell.start revoked)))
    "command:execute" = Ok true.
Proof.
  intros revoked. split; [vm_compute; reflexivity|].
  apply (start_grants_defaults_again revoked "command:execute");
    [reflexivity|left; reflexivity].
Defined.

End StartScenarios.

(** ** Recording sessions *)

Section Sessions.
Context `{Host}.

Lemma recordCommand_run (input : string) (context : gmap string value)
    (s : ShellState) (a : nat) (cur : Recording) :
  Session.recording_into s a cur ->
  exists s',
    Recorder.recordCommand input context s = (Ok tt, s') /\
    Session.recording_into s' a
      (Recorder.with_rcd_commands
         (fun l => l ++ Session.records (List.length (rcd_commands cur) + 1)
                                        (clock s) context [input])
         cur) /\
    rec_recordings (executionRecorder s') =
      rec_recordings (executionRecorder s) /\
    clock s' = clock s.
Proof.
  intros (Hrecording & Hcurrent & Hobject).
  unfold Recorder.recordCommand, Recorder.current, Recorder.update_current.
  unfold_M. cbn. rewrite Hrecording. cbn. rewrite Hcurrent, Hobject. cbn.
  rewrite Hcurrent. cbn. eexists. split; [reflexivity|].
  unfold Session.recording_into. cbn.
  rewrite list_lookup_alter_eq, Hobject. repeat split; assumption.
Qed.

Lemma recordCommands_run (context : gmap string value)
    (inputs : list string) :
  forall (s : ShellState) (a : nat) (cur : Recording),
    Session.recording_into s a cur ->
    exists s',
      Session.recordCommands inputs context s = (Ok tt, s') /\
      Session.recording_into s' a
        (Recorder.with_rcd_commands
           (fun l => l ++ Session.records (List.length (rcd_commands cur) + 1)
                                          (clock s) context inputs)
           cur) /\
      rec_recordings (executionRecorder s') =
        rec_recordings (executionRecorder s) /\
      clock s' = clock s.
Proof.
  induction inputs as [|input rest IH]; intros s a cur Hinto.
  - exists s. split; [reflexivity|]. split; [|split; reflexivity].
    destruct Hinto as (Hrecording & Hcurrent & Hobject).
    repeat split; try assumption. rewrite Hobject. f_equal.
    destruct cur. unfold Recorder.with_rcd_commands. cbn.
    rewrite app_nil_r. reflexivity.
  - destruct (recordCommand_run input context s a cur Hinto)
      as (s1 & Hrun & Hinto1 & Hrecordings1 & Hclock1).
    destruct (IH s1 a _ Hinto1) as (s2 & Hrest & Hinto2 & Hrecordings2 & Hclock2).
    exists s2. cbn [Session.recordCommands]. unfold bind.
    rewrite Hrun, Hrest. split; [reflexivity|].
    split; [|split; congruence].
    destruct Hinto2 as (Hrecording & Hcurrent & Hobject).
    repeat split; try assumption. rewrite Hobject. f_equal.
    unfold Recorder.with_rcd_commands. cbn.
    rewrite length_app, Hclock1, <- app_assoc. cbn.
    replace (List.length (rcd_commands cur) + 1 + 1)
      with (S (List.length (rcd_commands cur) + 1)) by lia.
    reflexivity.
Qed.

Lemma recordCommandResult_run (commandId : nat) (result : value)
    (error : option exn) (s : ShellState) (a : nat) (cur : Recording) :
  Session.recording_into s a cur ->
  exists s',
    Recorder.recordCommandResult commandId result error s = (Ok tt, s') /\
    Session.recording_into s' a
      (Recorder.with_rcd_commands
         (Recorder.setResult commandId result error (clock s)) cur) /\
    rec_recordings (executionRecorder s') =
      rec_recordings (executionRecorder s) /\
    clock s' = clock s.
Proof.
  intros (Hrecording & Hcurrent & Hobject).
  unfold Recorder.recordCommandResult, Recorder.update_current.
  unfold_M. cbn. rewrite Hrecording. cbn. rewrite Hcurrent. cbn.
  eexists. split; [reflexivity|].
  unfold Session.recording_into. cbn.
  rewrite list_lookup_alter_eq, Hobject. repeat split; assumption.
Qed.

Lemma startRecording_run (name : option string) (s : ShellState) :
  rec_recording (executionRecorder s) = false ->
  exists s' cur,
    Recorder.startRecording name s = (Ok tt, s') /\
    Session.recording_into s'
      (List.length (rec_objects (executionRecorder s))) cur /\
    rcd_commands cur = [] /\
    rcd_id cur = S (rec_recordingId (executionRecorder s)) /\
    rcd_name cur =
      Recorder.recordingName name (S (rec_recordingId (executionRecorder s)))
                             (clock s) /\
    map snap_type (rcd_snapshots cur) = ["recording_start"] /\
    rec_recordings (executionRecorder s') !!
      S (rec_recordingId (executionRecorder s)) =
      Some (List.length (rec_objects (executionRecorder s))) /\
    clock s' = clock s.
Proof.
  intros Hidle.
  unfold Recorder.startRecording, Recorder.createSnapshot,
    Recorder.update_current, Recorder.captureShellState.
  unfold_M. cbn. rewrite Hidle. cbn.
  eexists. eexists. split; [reflexivity|].
  unfold Session.recording_into. cbn.
  rewrite list_lookup_alter_eq, list_lookup_middle by reflexivity. cbn.
  rewrite lookup_insert_eq. repeat split.
Qed.

Lemma stopRecording_run (s : ShellState) (a : nat) (cur : Recording) :
  Session.recording_into s a cur ->
  exists s' snapshot,
    Recorder.stopRecording s =
      (Ok (Recorder.with_rcd_snapshots (fun l => l ++ [snapshot])
             (Recorder.with_rcd_end (clock s) cur)),
       s') /\
    snap_type snapshot = "recording_end" /\
    rec_recording (executionRecorder s') = false /\
    rec_currentRecording (executionRecorder s') = None /\
    rec_objects (executionRecorder s') !! a =
      Some (Recorder.with_rcd_snapshots (fun l => l ++ [snapshot])
              (Recorder.with_rcd_end (clock s) cur)) /\
    rec_recordings (executionRecorder s') =
      rec_recordings (executionRecorder s).
Proof.
  intros (Hrecording & Hcurrent & Hobject).
  unfold Recorder.stopRecording, Recorder.createSnapshot,
    Recorder.update_current, Recorder.captureShellState, Recorder.current,
    Recorder.saveRecording, Bridge.perform.
  unfold_M. cbn.
  repeat (first [ rewrite Hrecording | rewrite Hcurrent
                | rewrite list_lookup_alter_eq | rewrite Hobject ]; cbn).
  destruct (respond _ (FsMkdir _)); cbn;
    [destruct (respond _ (FsWriteRecording _ _)); cbn|];
    repeat (first [ rewrite Hrecording | rewrite Hcurrent
                  | rewrite list_lookup_alter_eq | rewrite Hobject ]; cbn);
    (eexists; eexists; split; [reflexivity|]);
    cbn;
    repeat (first [ rewrite Hrecording | rewrite Hcurrent
                  | rewrite list_lookup_alter_eq | rewrite Hobject ]; cbn);
    repeat split.
Qed.

Lemma records_inputs (first : nat) (now : Z) (context : gmap string value)
    (inputs : list string) :
  map cr_input (Session.records first now context inputs) = inputs.
Proof.
  revert first. induction inputs as [|input rest IH]; intros first;
    [reflexivity|].
  cbn. rewrite IH. reflexivity.
Qed.

Lemma records_ids (first : nat) (now : Z) (context : gmap string value)
    (inputs : list string) :
  map cr_id (Session.records first now context inputs) =
  seq first (List.length inputs).
Proof.
  revert first. induction inputs as [|input rest IH]; intros first;
    [reflexivity|].
  cbn. rewrite IH. reflexivity.
Qed.

Lemma setResult_records (result : value) (error : option exn) (at_ : Z)
    (now : Z) (context : gmap string value) (inputs : list string) :
  forall first k,
    first <= k ->
    Recorder.setResult k result error at_
      (Session.records first now context inputs) =
    alter (Session.answered result error at_) (k - first)
          (Session.records first now context inputs).
Proof.
  induction inputs as [|input rest IH]; intros first k Hle; [reflexivity|].
  cbn [Session.records Recorder.setResult cr_id].
  destruct (Nat.eqb first k) eqn:Hk.
  - apply Nat.eqb_eq in Hk as ->. rewrite Nat.sub_diag. reflexivity.
  - apply Nat.eqb_neq in Hk.
    replace (k - first) with (S (k - S first)) by lia.
    rewrite IH by lia. reflexivity.
Qed.

(** X25. A session [startRecording], [recordCommand] for each of a list
    of inputs, [stopRecording], on a recorder that is not recording,
    returns a recording with the next id, whose commands are the inputs
    in order, numbered from 1, between a start and an end snapshot. The
    recorder is idle again and keeps the recording under its id. *)
Theorem recording_session (name : option string) (inputs : list string)
    (context : gmap string value) (s : ShellState) :
  rec_recording (executionRecorder s) = false ->
  let r := (Recorder.startRecording name >>
            Session.recordCommands inputs context >>
            Recorder.stopRecording)%sh s in
  exists recording,
    fst r = Ok recording /\
    rcd_id recording = S (rec_recordingId (executionRecorder s)) /\
    rcd_name recording =
      Recorder.recordingName name (S (rec_recordingId (executionRecorder s)))
                             (clock s) /\
    map cr_input (rcd_commands recording) = inputs /\
    map cr_id (rcd_commands recording) = seq 1 (List.length inputs) /\
    map snap_type (rcd_snapshots recording) =
      ["recording_start"; "recording_end"] /\
    rec_recording (executionRecorder (snd r)) = false /\
    exists a,
      rec_recordings (executionRecorder (snd r)) !! rcd_id recording
        = Some a /\
      rec_objects (executionRecorder (snd r)) !! a = Some recording.
Proof.
  intros Hidle r. subst r.
  destruct (startRecording_run name s Hidle)
    as (s1 & cur & Hstart & Hinto1 & Hcommands & Hid & Hname & Hsnaps
        & Hentry & Hclock1).
  destruct (recordCommands_run context inputs s1 _ cur Hinto1)
    as (s2 & Hrecord & Hinto2 & Hrecordings2 & Hclock2).
  destruct (stopRecording_run s2 _ _ Hinto2)
    as (s3 & snapshot & Hstop & Htype & Hidle3 & _ & Hobject3 & Hrecordings3).
  unfold bind. rewrite Hstart, Hrecord, Hstop. cbn [fst snd].
  eexists. split; [reflexivity|].
  split; [exact Hid|]. split; [exact Hname|].
  split.
  { cbn [Recorder.with_rcd_snapshots Recorder.with_rcd_end
         Recorder.with_rcd_commands rcd_commands].
    rewrite Hcommands. apply records_inputs. }
  split.
  { cbn [Recorder.with_rcd_snapshots Recorder.with_rcd_end
         Recorder.with_rcd_commands rcd_commands].
    rewrite Hcommands. apply records_ids. }
  split.
  { cbn [Recorder.with_rcd_snapshots Recorder.with_rcd_end
         Recorder.with_rcd_commands rcd_snapshots].
    rewrite map_app, Hsnaps. cbn [map app]. rewrite Htype. reflexivity. }
  split; [exact Hidle3|].
  exists (List.length (rec_objects (executionRecorder s))). split.
  - cbn [Recorder.with_rcd_snapshots Recorder.with_rcd_end
         Recorder.with_rcd_commands rcd_id].
    rewrite Hid, Hrecordings3, Hrecordings2. exact Hentry.
  - exact Hobject3.
Qed.

(** X26. [recordCommandResult(k, ...)] in such a session assigns result,
    error and execution time to the k-th recorded command and to no other
    one; a [k] beyond the commands recorded so far changes nothing. *)
Theorem recordCommandResult_answers_one_command (name : option string)
    (inputs : list string) (context : gmap string value) (k : nat)
    (result : value) (error : option exn) (s : ShellState) :
  rec_recording (executionRecorder s) = false ->
  k <> 0 ->
  let r := (Recorder.startRecording name >>
            Session.recordCommands inputs context >>
            Recorder.recordCommandResult k result error >>
            Recorder.stopRecording)%sh s in
  exists recording,
    fst r = Ok recording /\
    rcd_commands recording =
      alter (Session.answered result error (clock s)) (k - 1)
            (Session.records 1 (clock s) context inputs).
Proof.
  intros Hidle Hk r. subst r.
  destruct (startRecording_run name s Hidle)
    as (s1 & cur & Hstart & Hinto1 & Hcommands & _ & _ & _ & _ & Hclock1).
  destruct (recordCommands_run context inputs s1 _ cur Hinto1)
    as (s2 & Hrecord & Hinto2 & _ & Hclock2).
  destruct (recordCommandResult_run k result error s2 _ _ Hinto2)
    as (s3 & Hresult & Hinto3 & _ & Hclock3).
  destruct (stopRecording_run s3 _ _ Hinto3)
    as (s4 & snapshot & Hstop & _).
  unfold bind. rewrite Hstart, Hrecord, Hresult, Hstop. cbn [fst snd].
  eexists. split; [reflexivity|].
  cbn [Recorder.with_rcd_snapshots Recorder.with_rcd_end
       Recorder.with_rcd_commands rcd_commands].
  rewrite Hcommands, Hclock2, Hclock1. cbn [app List.length Nat.add].
  apply setResult_records. lia.
Qed.

End Sessions.

Section SessionScenarios.
#[local] Existing Instance Scenario.host.

Lemma recording_session_witness :
  exists recording,
    fst ((Recorder.startRecording (Some "demo") >>
          Session.recordCommands ["pwd"; "date"] ∅ >>
          Recorder.stopRecording)%sh Scenario.started) = Ok recording /\
    rcd_name recording = "demo" /\
    map cr_input (rcd_commands recording) = ["pwd"; "date"] /\
    map cr_id (rcd_commands recording) = [1; 2].
Proof.
  destruct (recording_session (Some "demo") ["pwd"; "date"] ∅
              Scenario.started eq_refl)
    as (recording & Hrun & _ & Hname & Hinputs & Hids & _).
  exists recording. repeat split; assumption.
Defined.

Lemma recordCommandResult_answers_one_command_witness :
  exists recording,
    fst ((Recorder.startRecording (Some "demo") >>
          Session.recordCommands ["pwd"; "date"] ∅ >>
          Recorder.recordCommandResult 2 (VStr "today") None >>
          Recorder.stopRecording)%sh Scenario.started) = Ok recording /\
    map cr_result (rcd_commands recording) = [None; Some (VStr "today")].
Proof.
  destruct (recordCommandResult_answers_one_command (Some "demo")
              ["pwd"; "date"] ∅ 2 (VStr "today") None Scenario.started
              eq_refl)
    as (recording & Hrun & Hcommands); [discriminate|].
  exists recording. split; [exact Hrun|].
  rewrite Hcommands. reflexivity.
Defined.

End SessionScenarios.

(** ** The lookup with ECMAScript's regular expressions *)



Section LookupOrder.
#[local] Existing Instance Scenario.host.








End LookupOrder.

(** ** Rollbacks that do not restore *)

Section RollbackScenarios.
#[local] Existing Instance Scenario.host.

(** C7, as the specification has it, fails in two ways. A transaction
    that fails in [/home/u] and whose [onRollback] callback changes the
    directory ends in the callback's directory: the callback runs after
    the snapshot is restored. And a transaction that fails in [/tmp] with
    the id of a frame an earlier failed transaction left on the stack is
    rolled back to that frame's snapshot, taken in [/home/u]. *)
Lemma rollback_can_leave_another_state :
  let sh := {| state := Scenario.started; transactionStack := [] |} in
  let moving :=
    {| onRollback :=
         Some (fun _ _ _ => modify (Scenario.with_currentDirectory "/x")) |} in
  let plain := {| onRollback := None |} in
  let r := Shell.executeTransaction ["nonexistent-command"] moving
             "k3j9x0a1b" sh in
  let failed := snd (Shell.executeTransaction ["nonexistent-command"] plain
                       "k3j9x0a1b" sh) in
  let moved := snd (Shell.on_state (Shell.executeCommand "cd /tmp" ∅)
                      failed) in
  let r' := Shell.executeTransaction ["nonexistent-command"] plain
              "k3j9x0a1b" moved in
  Shell.triple (state sh) = ("/home/u", ∅, ∅) /\
  fst r = Throw (Error "spawn nonexistent-command ENOENT") /\
  Shell.triple (state (snd r)) = ("/x", ∅, ∅) /\
  Shell.triple (state moved) = ("/tmp", ∅, ∅) /\
  fst r' = Throw (Error "spawn nonexistent-command ENOENT") /\
  Shell.triple (state (snd r')) = ("/home/u", ∅, ∅) /\
  Shell.triple (state (snd r)) <> Shell.triple (state sh) /\
  Shell.triple (state (snd r')) <> Shell.triple (state moved).
Proof.
  intros sh moving plain r failed moved r'.
  assert (Hbegin : Shell.triple (state sh) = ("/home/u", ∅, ∅))
    by (vm_compute; reflexivity).
  assert (Hend : Shell.triple (state (snd r)) = ("/x", ∅, ∅))
    by (vm_compute; reflexivity).
  assert (Hbegin' : Shell.triple (state moved) = ("/tmp", ∅, ∅))
    by (vm_compute; reflexivity).
  assert (Hend' : Shell.triple (state (snd r')) = ("/home/u", ∅, ∅))
    by (vm_compute; reflexivity).
  split; [exact Hbegin|]. split; [vm_compute; reflexivity|].
  split; [exact Hend|]. split; [exact Hbegin'|].
  split; [vm_compute; reflexivity|]. split; [exact Hend'|].
  rewrite Hbegin, Hend, Hbegin', Hend'. split; discriminate.
Qed.

End RollbackScenarios.
